(** * ChatGPT export reader: the conversation core of [convert.py]

    A shallow embedding of [extract_message_text], [build_message_thread],
    [get_first_user_message], [count_messages] and
    [conversation_to_markdown], over the values that [json.load] produces,
    with Python's run-time errors made explicit. *)

From Stdlib Require Import ZArith NArith String Ascii List SpecFloat.
From stdpp Require Import base option list gmap sets strings pretty sorting.

Open Scope string_scope.
Open Scope list_scope.

#[local] Set Warnings "-clear-no-such-hyp".
Set Default Proof Using "Type".

(** ** Python values *)

(** A Python [str] is a sequence of Unicode code points. *)
Abbreviation str := (list N).

Definition pystr (s : string) : str :=
  (fun a => N_of_ascii a) <$> list_ascii_of_string s.

(** String literals of the source are written as Rocq strings. *)
Coercion pystr : string >-> list.
Arguments pystr : simpl never.

(** What [json.load] returns: [None], [bool], [int], [float], [str],
    [list], and [dict] (insertion-ordered, keys are [str]). *)
#[local] Unset Elimination Schemes.
Inductive json : Type :=
| JNull
| JBool (b : bool)
| JInt (z : Z)
| JFloat (f : spec_float)
| JStr (s : str)
| JArr (items : list json)
| JObj (fields : list (str * json)).
#[local] Set Elimination Schemes.

Abbreviation dict := (list (str * json)).

Inductive exn : Type :=
  TypeError | AttributeError | KeyError | RecursionError.

(** The outcome of running a piece of the program: a value, a raised
    exception, or (for the fuelled traversal only) exhausted fuel. *)
Inductive outcome (A : Type) : Type :=
| Ok (a : A)
| Raise (e : exn)
| OutOfFuel.
Arguments Ok {A} a.
Arguments Raise {A} e.
Arguments OutOfFuel {A}.

#[global] Instance outcome_ret : MRet outcome := fun _ a => Ok a.
#[global] Instance outcome_bind : MBind outcome := fun _ _ f m =>
  match m with
  | Ok a => f a
  | Raise e => Raise e
  | OutOfFuel => OutOfFuel
  end.

(** The run did not stop for lack of fuel; it returned a value; it raised
    no exception. *)
Definition finished {A : Type} (r : outcome A) : Prop := r <> OutOfFuel.

Definition returns {A : Type} (r : outcome A) : Prop := exists a, r = Ok a.


(** [bool(v)] *)
Definition truthy (v : json) : bool :=
  match v with
  | JNull => false
  | JBool b => b
  | JInt z => negb (Z.eqb z 0)
  | JFloat (S754_zero _) => false
  | JFloat _ => true
  | JStr [] => false
  | JStr _ => true
  | JArr [] => false
  | JArr _ => true
  | JObj [] => false
  | JObj _ => true
  end.

(** [hash(v)] succeeds *)
Definition hashable (v : json) : bool :=
  match v with
  | JArr _ | JObj _ => false
  | _ => true
  end.

(** [v == s] for a [str] [s] *)
Definition is_str (v : json) (s : str) : bool :=
  match v with
  | JStr t => bool_decide (t = s)
  | _ => false
  end.

(** [d.get(k)] on a dict, as an option *)
Fixpoint dict_lookup (k : str) (d : dict) : option json :=
  match d with
  | [] => None
  | (k', v) :: d' => if decide (k' = k) then Some v else dict_lookup k d'
  end.

(** [d.get(k, dflt)] on a dict *)
Definition dict_get (d : dict) (k : str) (dflt : json) : json :=
  default dflt (dict_lookup k d).

(** [k in d] on a dict *)
Definition dict_has (k : str) (d : dict) : bool :=
  bool_decide (is_Some (dict_lookup k d)).

(** [o.get(k, dflt)]: only a dict has the method *)
Definition py_get (o : json) (k : str) (dflt : json) : outcome json :=
  match o with
  | JObj d => Ok (dict_get d k dflt)
  | _ => Raise AttributeError
  end.

(** [k in s] for two strings: [k] occurs in [s] as a substring *)
Fixpoint is_prefix (k s : str) : bool :=
  match k, s with
  | [], _ => true
  | _ :: _, [] => false
  | a :: k', b :: s' => bool_decide (a = b) && is_prefix k' s'
  end.

Fixpoint is_substring (k s : str) : bool :=
  is_prefix k s ||
  match s with
  | [] => false
  | _ :: s' => is_substring k s'
  end.

(** [k in x] for a [str] [k] *)
Definition py_contains (k : str) (x : json) : outcome bool :=
  match x with
  | JObj d => Ok (dict_has k d)
  | JStr s => Ok (is_substring k s)
  | JArr l => Ok (existsb (fun v => is_str v k) l)
  | _ => Raise TypeError
  end.

(** [x[k]] for a [str] [k] *)
Definition py_getitem (x : json) (k : str) : outcome json :=
  match x with
  | JObj d =>
      match dict_lookup k d with
      | Some v => Ok v
      | None => Raise KeyError
      end
  | _ => Raise TypeError
  end.

(** [for item in x]: the items in order *)
Definition py_iter (x : json) : outcome (list json) :=
  match x with
  | JArr l => Ok l
  | JStr s => Ok ((fun c => JStr [c]) <$> s)
  | JObj d => Ok ((fun kv => JStr kv.1) <$> d)
  | _ => Raise TypeError
  end.

(** [sep.join(items)] on [str] items *)
Fixpoint join (sep : str) (items : list str) : str :=
  match items with
  | [] => []
  | [s] => s
  | s :: rest => s ++ sep ++ join sep rest
  end.

Fixpoint all_str (items : list json) : option (list str) :=
  match items with
  | [] => Some []
  | JStr s :: rest => (fun l => s :: l) <$> all_str rest
  | _ :: _ => None
  end.

(** [sep.join(items)]: an item that is not a [str] is a [TypeError] *)
Definition py_join (sep : str) (items : list json) : outcome str :=
  match all_str items with
  | Some l => Ok (join sep l)
  | None => Raise TypeError
  end.

Definition newline : str := [10%N].
Definition space : N := 32%N.

(** [s.replace('\n', ' ')] *)
Definition replace_newlines (s : str) : str :=
  (fun c => if decide (c = 10%N) then space else c) <$> s.

(** [c.isspace()], the characters [str.strip()] removes *)
Definition is_space (c : N) : bool :=
  ((9 <=? c) && (c <=? 13) || (28 <=? c) && (c <=? 32) ||
   (c =? 133) || (c =? 160) || (c =? 5760) ||
   (8192 <=? c) && (c <=? 8202) || (c =? 8232) || (c =? 8233) ||
   (c =? 8239) || (c =? 8287) || (c =? 12288))%N.

Fixpoint lstrip (s : str) : str :=
  match s with
  | c :: s' => if is_space c then lstrip s' else s
  | [] => []
  end.

(** [s.strip()] *)
Definition strip (s : str) : str := reverse (lstrip (reverse (lstrip s))).

(** ** File names

    [sanitize_filename] and the file name loop of [main]. *)

(** The characters the first substitution removes: less-than,
    greater-than, colon, double quote, slash, backslash, bar, question
    mark and star. *)
Definition unsafe_chars : str := [60; 62; 58; 34; 47; 92; 124; 63; 42]%N.

Definition unsafe_char (c : N) : bool := bool_decide (c ∈ unsafe_chars).

(** [re.sub] of these characters by the empty string *)
Definition remove_unsafe (s : str) : str :=
  List.filter (fun c => negb (unsafe_char c)) s.

(** [re.sub(r'\s+', ' ', s)]: every maximal run of whitespace becomes one
    space; [in_run] says that the character before was whitespace. *)
Fixpoint collapse_from (in_run : bool) (s : str) : str :=
  match s with
  | [] => []
  | c :: s' =>
      if is_space c
      then if in_run then collapse_from true s'
           else space :: collapse_from true s'
      else c :: collapse_from false s'
  end.

Definition collapse_spaces (s : str) : str := collapse_from false s.

(** The part of [s] before its last space, if it has a space. *)
Fixpoint cut_last_space (s : str) : option str :=
  match s with
  | [] => None
  | c :: s' =>
      match cut_last_space s' with
      | Some p => Some (c :: p)
      | None => if decide (c = space) then Some [] else None
      end
  end.

(** [s.rsplit(' ', 1)[0]] *)
Definition rsplit_head (s : str) : str := default s (cut_last_space s).

(** [sanitize_filename(title, max_length)], for a [max_length] that is
    not negative. *)
Definition sanitize_filename (title : json) (max_length : nat) : outcome str :=
  let title := if truthy title then title else JStr "Untitled" in
  match title with
  | JStr t =>
      let safe := strip (collapse_spaces (remove_unsafe t)) in
      let safe :=
        if decide (max_length < length safe)
        then rsplit_head (take max_length safe)
        else safe in
      Ok (match safe with [] => pystr "Untitled" | _ => safe end)
  | _ => Raise TypeError
  end.

(** [s.rstrip()], by recursion on [s]. *)
Fixpoint rstrip (s : str) : str :=
  match s with
  | [] => []
  | c :: s' =>
      match rstrip s' with
      | [] => if is_space c then [] else [c]
      | r => c :: r
      end
  end.

(** The only whitespace is the space, and no whitespace follows it. *)
Fixpoint spaced (s : str) : bool :=
  match s with
  | [] => true
  | c :: s' =>
      (negb (is_space c) ||
       bool_decide (c = space) &&
       match s' with
       | [] => true
       | d :: _ => negb (is_space d)
       end)
      && spaced s'
  end.

Definition starts_clean (s : str) : bool :=
  match s with
  | c :: _ => negb (is_space c)
  | [] => true
  end.

(** A name in the form [sanitize_filename] leaves it: the only whitespace
    is the space, never first, last or doubled. *)
Fixpoint single_spaced (s : str) : bool :=
  match s with
  | [] => true
  | c :: s' =>
      (negb (is_space c) ||
       bool_decide (c = space) &&
       match s' with
       | [] => false
       | d :: _ => negb (is_space d)
       end)
      && single_spaced s'
  end.

Definition tidy (s : str) : bool := single_spaced s && starts_clean s.

(** [f"{stem}_{counter}.md"], [stem] being the date prefix, an underscore
    and the sanitized title. *)
Definition numbered_name (stem : str) (counter : N) : str :=
  stem ++ pystr "_" ++ pystr (pretty counter) ++ pystr ".md".

(** The [while filename in filenames_used] loop of [main], bounded by
    [fuel]. *)
Fixpoint free_name (fuel : nat) (used : gset str) (stem filename : str)
    (counter : N) : outcome str :=
  match fuel with
  | O => OutOfFuel
  | S fuel' =>
      if decide (filename ∈ used)
      then free_name fuel' used stem (numbered_name stem counter)
             (counter + 1)%N
      else Ok filename
  end.

(** The file name [main] gives a conversation, [used] being the names
    taken so far. *)
Definition unique_filename (used : gset str) (date_prefix safe_title : str)
    : outcome str :=
  let stem := date_prefix ++ pystr "_" ++ safe_title in
  free_name (S (S (size used))) used stem (stem ++ pystr ".md") 1.

(** ** Escaping for the index page *)

(** [s.replace(old, new)] for an [old] of one character *)
Definition replace_char (old : N) (new : str) (s : str) : str :=
  c ← s; if decide (c = old) then new else [c].

Definition ampersand : N := 38%N.
Definition less_than : N := 60%N.
Definition greater_than : N := 62%N.
Definition double_quote : N := 34%N.
Definition single_quote : N := 39%N.
Definition backslash : N := 92%N.
Definition line_feed : N := 10%N.
Definition carriage_return : N := 13%N.

(** [html.escape(s)], as the standard library has it: the ampersand
    first, then the angle brackets, then both quotes. *)
Definition html_escape (s : str) : str :=
  replace_char single_quote "&#x27;"
    (replace_char double_quote "&quot;"
       (replace_char greater_than "&gt;"
          (replace_char less_than "&lt;"
             (replace_char ampersand "&amp;" s)))).

(** [escape_html(s)] *)
Definition escape_html (s : json) : outcome str :=
  if truthy s then
    match s with
    | JStr t => Ok (html_escape t)
    | _ => Raise AttributeError
    end
  else Ok [].

(** [escape_js_string(s)] *)
Definition escape_js_string (s : json) : outcome str :=
  if negb (truthy s) then Ok [] else
  match s with
  | JStr t =>
      Ok (replace_char greater_than "&gt;"
            (replace_char less_than "&lt;"
               (replace_char carriage_return []
                  (replace_char line_feed " "
                     (replace_char double_quote "&quot;"
                        (replace_char backslash [backslash; backslash] t))))))
  | _ => Raise AttributeError
  end.

(** What [html.escape] makes of one character. *)
Definition html_entity (c : N) : str :=
  if decide (c = ampersand) then "&amp;"
  else if decide (c = less_than) then "&lt;"
  else if decide (c = greater_than) then "&gt;"
  else if decide (c = double_quote) then "&quot;"
  else if decide (c = single_quote) then "&#x27;"
  else [c].

(** ** A run-time for the concrete inputs

    The concrete inputs below format no value that is not a [str] and
    render no date, so any instance of the parameters of the program
    serves to run them. *)
Definition plain_str : json -> str := fun _ => [].
Definition no_datetime : json -> option unit := fun _ => None.
Definition no_strftime : unit -> str := fun _ => [].
Definition same_title : str -> str := fun s => s.

(** ** The program *)

(** One entry of the thread: [{'role': ..., 'text': ..., 'time': ...}]. *)
Record msg : Type := Msg { role : str; text : str; time : json }.

(** The two variables [traverse] closes over and mutates. [visited] keeps
    the [str] ids only: an id of another hashable type is never a key of
    [nodes], so whether it was seen before changes nothing. *)
Record tstate : Type := TState { visited : gset str; messages : list msg }.

Section Program.

(** [str(v)] for a value that is not a [str], as an f-string inserts it;
    its text for numbers and containers is left open. *)
Variable py_str : json -> str.

(** [f"{v}"] *)
Definition format_value (v : json) : str :=
  match v with
  | JStr s => s
  | _ => py_str v
  end.

(** The body of the loop over [parts]: what one part appends to
    [text_parts], if anything. *)
Definition part_text (part : json) : option json :=
  match part with
  | JStr s => Some (JStr s)
  | JObj d =>
      if is_str (dict_get d "content_type" JNull) "image_asset_pointer"
      then Some (JStr "[Image]")
      else if dict_has "text" d then dict_lookup "text" d
      else None
  | _ => None
  end.

Definition collect_parts (parts : list json) : list json :=
  omap part_text parts.

Definition fence : str := "```".

(** [f"```\n{t}\n```"] *)
Definition code_block (t : json) : str :=
  fence ++ newline ++ format_value t ++ newline ++ fence.

(** [extract_message_text(message)]; [None] is the source's [None]. *)
Definition extract_message_text (message : json) : outcome (option str) :=
  if negb (truthy message) then Ok None else
  has_content ← py_contains "content" message;
  if negb has_content then Ok None else
  content ← py_getitem message "content";
  content_type ← py_get content "content_type" (JStr "");
  if is_str content_type "text" || is_str content_type "multimodal_text" then
    parts ← py_get content "parts" (JArr []);
    items ← py_iter parts;
    let text_parts := collect_parts items in
    match text_parts with
    | [] => Ok None
    | _ => joined ← py_join newline text_parts; Ok (Some joined)
    end
  else if is_str content_type "code" then
    t ← py_get content "text" (JStr "");
    Ok (Some (code_block t))
  else Ok None.

(** [text], as a condition: a [str] that is not empty *)
Definition text_truthy (t : option str) : bool :=
  match t with
  | Some (_ :: _) => true
  | _ => false
  end.

(** [author in ('user', 'assistant', 'tool')] *)
Definition shown_role (author : json) : bool :=
  is_str author "user" || is_str author "assistant" || is_str author "tool".

(** The first loop of [build_message_thread]: fills [children_map] and
    [nodes]. A parent that is truthy and not hashable cannot be a key of
    [children_map]; only [str] parents are kept in the model of it, the
    map being read nowhere. *)
Definition index_node (acc : gmap str (list str) * gmap str json)
    (entry : str * json) : outcome (gmap str (list str) * gmap str json) :=
  let '(children_map, nodes) := acc in
  let '(node_id, node) := entry in
  let nodes := <[node_id := node]> nodes in
  parent ← py_get node "parent" JNull;
  if truthy parent then
    match parent with
    | JStr p =>
        Ok (<[p := default [] (children_map !! p) ++ [node_id]]> children_map, nodes)
    | JArr _ | JObj _ => Raise TypeError
    | _ => Ok (children_map, nodes)
    end
  else Ok (children_map, nodes).

Fixpoint build_index (acc : gmap str (list str) * gmap str json)
    (mapping : dict) : outcome (gmap str (list str) * gmap str json) :=
  match mapping with
  | [] => Ok acc
  | entry :: rest => acc' ← index_node acc entry; build_index acc' rest
  end.

(** The second loop: the first id whose node has [parent] [None]. *)
Fixpoint find_root (mapping : dict) : outcome (option str) :=
  match mapping with
  | [] => Ok None
  | (node_id, node) :: rest =>
      parent ← py_get node "parent" JNull;
      match parent with
      | JNull => Ok (Some node_id)
      | _ => find_root rest
      end
  end.

(** The part of [traverse] that looks at the node's message. *)
Definition visit_message (node : json) (st : tstate) : outcome tstate :=
  message ← py_get node "message" JNull;
  if truthy message then
    author_obj ← py_get message "author" (JObj []);
    author ← py_get author_obj "role" (JStr "unknown");
    text ← extract_message_text message;
    create_time ← py_get message "create_time" JNull;
    match author, text with
    | JStr r, Some t =>
        if text_truthy text && shown_role author
        then Ok (TState (visited st) (messages st ++ [Msg r t create_time]))
        else Ok st
    | _, _ => Ok st
    end
  else Ok st.

(** [for x in xs: f(x)] over a threaded state *)
Fixpoint for_each {A S : Type} (f : A -> S -> outcome S) (xs : list A)
    (st : S) : outcome S :=
  match xs with
  | [] => Ok st
  | x :: rest => st' ← f x st; for_each f rest st'
  end.

(** [traverse(node_id)]; the recursion is bounded by [fuel]. *)
Fixpoint traverse (nodes : gmap str json) (fuel : nat) (node_id : json)
    (st : tstate) : outcome tstate :=
  match fuel with
  | O => OutOfFuel
  | S fuel' =>
      match node_id with
      | JArr _ | JObj _ => Raise TypeError
      | JStr id =>
          if decide (id ∈ visited st) then Ok st else
          let st := TState ({[id]} ∪ visited st) (messages st) in
          match nodes !! id with
          | None => Ok st
          | Some node =>
              if negb (truthy node) then Ok st else
              st ← visit_message node st;
              children ← py_get node "children" (JArr []);
              child_ids ← py_iter children;
              for_each (traverse nodes fuel') child_ids st
          end
      | _ => Ok st
      end
  end.

(** [build_message_thread(mapping)] *)
Definition build_message_thread (mapping : json) : outcome (list msg) :=
  if negb (truthy mapping) then Ok [] else
  match mapping with
  | JObj items =>
      '(children_map, nodes) ← build_index (∅, ∅) items;
      root ← find_root items;
      match root with
      | None | Some [] => Ok []
      | Some root =>
          st ← traverse nodes (S (size nodes)) (JStr root) (TState ∅ []);
          Ok (messages st)
      end
  | _ => Raise AttributeError
  end.

(** *** The recursion limit

    [traverse] calls itself once for each level of [children], and the
    interpreter lets calls nest only so deep. [frames] is the number of
    levels it still has room for; what finds no room is a
    [RecursionError]. A call of [traverse] takes one level. The call of
    [extract_message_text] that [traverse] makes takes [needs] levels:
    one for the call, and on an interpreter that counts them one more
    for the comparisons made inside. The methods of [dict], [set] and
    [list] that [traverse] calls are not functions of the program and
    take none. [traverse] and [build_message_thread] above are the
    functions on an interpreter without that limit. *)
Definition call {A : Type} (needs frames : nat) (result : outcome A)
    : outcome A :=
  if decide (frames < needs) then Raise RecursionError else result.




(** The body of the loop of [get_first_user_message]: the text the loop
    returns at this node, before it is cut, or [None] to go on. *)
Definition user_text (node : json) : outcome (option str) :=
  message ← py_get node "message" JNull;
  if truthy message then
    author_obj ← py_get message "author" (JObj []);
    author ← py_get author_obj "role" JNull;
    if is_str author "user" then
      text ← extract_message_text message;
      if text_truthy text then Ok text else Ok None
    else Ok None
  else Ok None.

(** [text.replace('\n', ' ').strip()[:150]] *)
Definition cut_preview (t : str) : str :=
  take 150 (strip (replace_newlines t)).

Fixpoint first_user_message (items : dict) : outcome str :=
  match items with
  | [] => Ok []
  | (node_id, node) :: rest =>
      found ← user_text node;
      match found : option str with
      | Some t => Ok (cut_preview t)
      | None => first_user_message rest
      end
  end.

(** [get_first_user_message(mapping)] *)
Definition get_first_user_message (mapping : json) : outcome str :=
  if negb (truthy mapping) then Ok [] else
  match mapping with
  | JObj items => first_user_message items
  | _ => Raise AttributeError
  end.

(** The body of the loop of [count_messages]: whether the node counts. *)
Definition counted (node : json) : outcome bool :=
  message ← py_get node "message" JNull;
  if truthy message then
    author_obj ← py_get message "author" (JObj []);
    role ← py_get author_obj "role" (JStr "");
    Ok (is_str role "user" || is_str role "assistant")
  else Ok false.

Fixpoint count_loop (count : Z) (items : dict) : outcome Z :=
  match items with
  | [] => Ok count
  | (node_id, node) :: rest =>
      c ← counted node;
      count_loop (if c : bool then count + 1 else count)%Z rest
  end.

(** [count_messages(mapping)] *)
Definition count_messages (mapping : json) : outcome Z :=
  if negb (truthy mapping) then Ok 0%Z else
  match mapping with
  | JObj items => count_loop 0 items
  | _ => Raise AttributeError
  end.

Section Markdown.

(** The standard library's [datetime]: the type, [datetime.fromtimestamp]
    ([None] where it raises), [strftime('%Y-%m-%d %H:%M')], and
    [str.title]. *)
Variable datetime : Type.
Variable fromtimestamp : json -> option datetime.
Variable strftime_minute : datetime -> str.
Variable str_title : str -> str.

(** [timestamp_to_datetime(ts)] *)
Definition timestamp_to_datetime (ts : json) : option datetime :=
  match ts with
  | JNull => None
  | _ => fromtimestamp ts
  end.

(** [conv.get('title', 'Untitled Conversation')] *)
Definition conversation_title (conv : json) : outcome json :=
  py_get conv "title" (JStr "Untitled Conversation").

Definition date_line (label : str) (t : option datetime) : list str :=
  match t with
  | Some d => [label ++ strftime_minute d]
  | None => []
  end.

Definition role_heading (r : str) : str :=
  if decide (r = pystr "user") then "## You"
  else if decide (r = pystr "assistant") then "## ChatGPT"
  else if decide (r = pystr "tool") then "## Tool Output"
  else "## " ++ str_title r.

Definition message_lines (m : msg) : list str :=
  [role_heading (role m); []; text m; []; pystr "---"; []].

(** The list [lines] of [conversation_to_markdown], before it is joined. *)
Definition conversation_lines (conv : json) : outcome (list str) :=
  title ← conversation_title conv;
  created ← py_get conv "create_time" JNull;
  updated ← py_get conv "update_time" JNull;
  let head :=
    ["# " ++ format_value title; []]
    ++ date_line "**Created:** " (timestamp_to_datetime created)
    ++ date_line "**Last Updated:** " (timestamp_to_datetime updated)
    ++ [[]; pystr "---"; []] in
  mapping ← py_get conv "mapping" (JObj []);
  thread ← build_message_thread mapping;
  Ok (head ++ concat (message_lines <$> thread)).

(** [conversation_to_markdown(conv)] *)
Definition conversation_to_markdown (conv : json) : outcome str :=
  lines ← conversation_lines conv;
  Ok (join newline lines).

End Markdown.

(** ** The mapping as the specification reads it *)

(** A field of an object; nothing when the value is not an object or has
    no such field. *)
Definition field (k : str) (v : json) : option json :=
  match v with
  | JObj d => dict_lookup k d
  | _ => None
  end.

(** The node's parent is absent: missing, or null. *)
Definition parent_absent (node : json) : bool :=
  match field "parent" node with
  | None | Some JNull => true
  | Some _ => false
  end.

(** The first node, in iteration order, whose parent is absent. *)
Definition first_parentless (mapping : dict) : option str :=
  fst <$> List.find (fun kv => parent_absent kv.2) mapping.

(** The dictionary [nodes] the first loop fills. *)
Definition nodes_of (mapping : dict) : gmap str json :=
  foldl (fun m kv => <[kv.1 := kv.2]> m) ∅ mapping.

(** The traversal from [root] over an empty [visited] and [messages]. *)
Definition thread_from (nodes : gmap str json) (root : str)
    : outcome (list msg) :=
  st ← traverse nodes (S (size nodes)) (JStr root) (TState ∅ []);
  Ok (messages st).

(** The author role of a message, [dflt] when author or role is missing. *)
Definition message_role (dflt : json) (message : json) : json :=
  match field "author" message with
  | Some author => default dflt (field "role" author)
  | None => dflt
  end.

(** What the node [id] adds to the thread when it is visited. *)
Definition node_messages (nodes : gmap str json) (id : str) : list msg :=
  match nodes !! id with
  | Some node =>
      match visit_message node (TState ∅ []) with
      | Ok st => messages st
      | _ => []
      end
  | None => []
  end.

(** [st'] comes from [st] by visiting the ids of [order], each for the
    first time, and appending what each of them adds. *)
Definition visits (nodes : gmap str json) (order : list str)
    (st st' : tstate) : Prop :=
  NoDup order
  /\ (forall x, x ∈ order -> x ∉ visited st)
  /\ visited st' = list_to_set order ∪ visited st
  /\ messages st' = messages st ++ concat (node_messages nodes <$> order).

(** The ids of [nodes] not visited yet: what the recursion descends on. *)
Definition unvisited (nodes : gmap str json) (st : tstate) : gset str :=
  dom nodes ∖ visited st.

(** The entry [m] is what the message of [node] is shown as: the text
    extracted from it, not empty, under its author role, one of user,
    assistant and tool, with its [create_time]. *)
Definition shown_as (node : json) (m : msg) : Prop :=
  exists message,
    field "message" node = Some message
    /\ extract_message_text message = Ok (Some (text m))
    /\ text m <> []
    /\ message_role (JStr "unknown") message = JStr (role m)
    /\ role m ∈ [pystr "user"; pystr "assistant"; pystr "tool"]
    /\ time m = default JNull (field "create_time" message).

(** The node's message has author role user or assistant. *)
Definition user_or_assistant (node : json) : bool :=
  match field "message" node with
  | Some message =>
      is_str (message_role JNull message) "user"
      || is_str (message_role JNull message) "assistant"
  | None => false
  end.

Definition count_user_assistant (mapping : dict) : Z :=
  Z.of_nat (length (List.filter (fun kv => user_or_assistant kv.2) mapping)).

(** The extracted text of a node whose message has author role user and
    a non-empty extracted text. *)
Definition user_message_text (node : json) : option str :=
  match field "message" node with
  | Some message =>
      if is_str (message_role JNull message) "user" then
        match extract_message_text message with
        | Ok (Some (c :: t)) => Some (c :: t)
        | _ => None
        end
      else None
  | None => None
  end.

Definition first_user_text (mapping : dict) : option str :=
  head (omap (fun kv => user_message_text kv.2) mapping).

(** The whitespace of the specification, by code point: the characters
    of which [str.isspace] holds. *)
Definition whitespace_chars : list N :=
  [9; 10; 11; 12; 13; 28; 29; 30; 31; 32; 133; 160; 5760; 8192; 8193; 8194;
   8195; 8196; 8197; 8198; 8199; 8200; 8201; 8202; 8232; 8233; 8239; 8287;
   12288]%N.

(** The preview as the specification words it: newlines replaced by
    spaces, trimmed, cut to 150 characters; empty without such a node. *)
Definition preview_of (mapping : dict) : str :=
  match first_user_text mapping with
  | Some t => take 150 (strip (replace_newlines t))
  | None => []
  end.

(** *** The shape of the export

    Every field may be missing. A field that is present has the type the
    export gives it: [parent] null or a scalar, [message] null or an
    object, [author] and [content] objects, [parts] a list in which an
    object part that is not an image pointer carries, if any, a [str]
    text, [children] a list of scalars. *)
Definition field_ok (P : json -> bool) (k : str) (d : dict) : bool :=
  match dict_lookup k d with
  | Some v => P v
  | None => true
  end.

Definition is_obj (v : json) : bool :=
  match v with
  | JObj _ => true
  | _ => false
  end.

Definition part_ok (part : json) : bool :=
  match part_text part with
  | Some (JStr _) | None => true
  | Some _ => false
  end.

Definition parts_ok (parts : json) : bool :=
  match parts with
  | JArr l => forallb part_ok l
  | _ => false
  end.

Definition content_ok (content : json) : bool :=
  match content with
  | JObj d => field_ok parts_ok "parts" d
  | _ => false
  end.

Definition message_ok (message : json) : bool :=
  match message with
  | JNull => true
  | JObj d => field_ok is_obj "author" d && field_ok content_ok "content" d
  | _ => false
  end.

Definition children_ok (children : json) : bool :=
  match children with
  | JArr l => forallb hashable l
  | _ => false
  end.

Definition node_ok (node : json) : bool :=
  match node with
  | JObj d =>
      field_ok hashable "parent" d && field_ok message_ok "message" d
      && field_ok children_ok "children" d
  | _ => false
  end.

(** What the first loop needs of a node: an object whose parent can be a
    dictionary key. *)
Definition node_indexed (node : json) : bool :=
  match node with
  | JObj d => field_ok hashable "parent" d
  | _ => false
  end.

Definition export_shape (mapping : dict) : bool :=
  forallb (fun kv => node_ok kv.2) mapping.


(** ** Reachability *)

(** The [str] ids among [items]. *)
Definition str_items (items : list json) : list str :=
  omap (fun v => match v with JStr c => Some c | _ => None end) items.

(** The ids [traverse] goes on to from the node [id]: the items of its
    [children] that are strings, none when the node is missing, falsy or
    has children that cannot be iterated. *)
Definition child_ids (nodes : gmap str json) (id : str) : list str :=
  match nodes !! id with
  | Some node =>
      if truthy node then
        match py_get node "children" (JArr []) ≫= py_iter with
        | Ok items => str_items items
        | _ => []
        end
      else []
  | None => []
  end.

(** [id'] is reached from [id] along [children] lists. *)
Definition reachable (nodes : gmap str json) : relation str :=
  rtc (fun id id' => id' ∈ child_ids nodes id).

(** The ids visited between [st] and [st'] have all their children
    visited in [st']. *)
Definition children_done (nodes : gmap str json) (st st' : tstate) : Prop :=
  forall x, x ∈ visited st' -> x ∉ visited st ->
    forall y, y ∈ child_ids nodes x -> y ∈ visited st'.

(** The node [id] with its id, when [count_messages] counts it. *)
Definition counted_node (nodes : gmap str json) (id : str)
    : option (str * json) :=
  match nodes !! id with
  | Some node => if user_or_assistant node then Some (id, node) else None
  | None => None
  end.

(** The entries of a thread that [count_messages] is about. *)
Definition user_assistant_entries (msgs : list msg) : list msg :=
  List.filter
    (fun m => bool_decide (role m = pystr "user")
              || bool_decide (role m = pystr "assistant")) msgs.

(** ** The export run of [main] *)

Section Main.

Variable datetime : Type.
Variable fromtimestamp : json -> option datetime.
Variable strftime_minute : datetime -> str.
Variable strftime_day : datetime -> str.
Variable strftime_month : datetime -> str.
Variable str_title : str -> str.

(** One entry of [conv_data]. *)
Record index_entry : Type := IndexEntry {
  entry_title : json;
  entry_date : option datetime;
  entry_filename : str;
  entry_preview : str;
  entry_message_count : Z;
  entry_month : str
}.

(** What the loop of [main] has done so far: the names taken, the files
    written (name and text, in order) and [conv_data]. *)
Record export_state : Type := ExportState {
  filenames_used : gset str;
  files : list (str * str);
  conv_data : list index_entry
}.

(** [create_time.strftime('%Y%m%d') if create_time else '00000000'] *)
Definition date_prefix_of (create_time : option datetime) : str :=
  match create_time with
  | Some d => strftime_day d
  | None => "00000000"
  end.

(** [create_time.strftime('%Y-%m') if create_time else 'Unknown'] *)
Definition month_of (create_time : option datetime) : str :=
  match create_time with
  | Some d => strftime_month d
  | None => "Unknown"
  end.

(** The body of the loop of [main], without its progress output; writing
    the file is recorded in [files]. *)
Definition export_conversation (conv : json) (st : export_state)
    : outcome export_state :=
  title ← py_get conv "title" (JStr "Untitled");
  created ← py_get conv "create_time" JNull;
  let create_time := timestamp_to_datetime datetime fromtimestamp created in
  safe_title ← sanitize_filename title 50;
  filename ← unique_filename (filenames_used st) (date_prefix_of create_time)
               safe_title;
  markdown ← conversation_to_markdown datetime fromtimestamp strftime_minute
               str_title conv;
  mapping ← py_get conv "mapping" (JObj []);
  preview ← get_first_user_message mapping;
  mapping ← py_get conv "mapping" (JObj []);
  message_count ← count_messages mapping;
  Ok (ExportState ({[filename]} ∪ filenames_used st)
        (files st ++ [(filename, markdown)])
        (conv_data st
         ++ [IndexEntry title create_time filename preview message_count
               (month_of create_time)])).

(** The loop of [main] over the conversations of the export. *)
Definition export_all (conversations : json) : outcome export_state :=
  convs ← py_iter conversations;
  for_each export_conversation convs (ExportState ∅ [] []).

End Main.

Arguments IndexEntry {datetime}.
Arguments entry_title {datetime}.
Arguments entry_date {datetime}.
Arguments entry_filename {datetime}.
Arguments entry_preview {datetime}.
Arguments entry_message_count {datetime}.
Arguments entry_month {datetime}.
Arguments ExportState {datetime}.
Arguments filenames_used {datetime}.
Arguments files {datetime}.
Arguments conv_data {datetime}.

(** ** The index page of [generate_html_index]

    The page is the fixed text of a template around month sections and
    rows. What is modelled is what the template is filled with, in the
    order it is written: the sections, and for each row the values
    computed for it. *)

(** [a < b] on [str]: lexicographic, by code point. *)
Fixpoint str_lt (a b : str) : bool :=
  match a, b with
  | _, [] => false
  | [], _ :: _ => true
  | x :: a', y :: b' => (x <? y)%N || ((x =? y)%N && str_lt a' b')
  end.

(** The sort of [list.sort] and [sorted], a function of the library: it
    is stable and compares the keys by [<] alone, so that on keys that
    [<] orders its result is the one of this insertion sort. With
    [reverse] the list is reversed, sorted and reversed again, which
    keeps the elements of equal keys in their order. *)
Fixpoint insert_sorted {A K : Type} (lt : K -> K -> bool) (key : A -> K)
    (x : A) (l : list A) : list A :=
  match l with
  | [] => [x]
  | y :: l' =>
      if lt (key y) (key x) then y :: insert_sorted lt key x l' else x :: l
  end.

Fixpoint stable_sort {A K : Type} (lt : K -> K -> bool) (key : A -> K)
    (l : list A) : list A :=
  match l with
  | [] => []
  | x :: l' => insert_sorted lt key x (stable_sort lt key l')
  end.

Definition py_sorted {A K : Type} (lt : K -> K -> bool) (key : A -> K)
    (reversed : bool) (l : list A) : list A :=
  if reversed then reverse (stable_sort lt key (reverse l))
  else stable_sort lt key l.

(** [by_month[month].append(c)] on the [defaultdict(list)], whose keys are
    in the order of their first use. *)
Fixpoint month_append {A : Type} (month : str) (c : A)
    (by_month : list (str * list A)) : list (str * list A) :=
  match by_month with
  | [] => [(month, [c])]
  | (m, cs) :: rest =>
      if decide (m = month) then (m, cs ++ [c]) :: rest
      else (m, cs) :: month_append month c rest
  end.

(** [by_month[month]]: a [defaultdict(list)] has the empty list for a
    key that it does not hold. *)
Fixpoint month_convs {A : Type} (month : str) (by_month : list (str * list A))
    : list A :=
  match by_month with
  | [] => []
  | (m, cs) :: rest => if decide (m = month) then cs else month_convs month rest
  end.

(** [value.lower()] *)
Definition py_lower (str_lower : str -> str) (value : json) : outcome str :=
  match value with
  | JStr s => Ok (str_lower s)
  | _ => Raise AttributeError
  end.

Section Index.

Variable datetime : Type.
Variable fromtimestamp : json -> option datetime.
Variable strftime_minute : datetime -> str.
Variable strftime_day : datetime -> str.
Variable strftime_month : datetime -> str.
Variable str_title : str -> str.

(** [a < b] on datetimes, and [datetime.min]. *)
Variable datetime_lt : datetime -> datetime -> bool.
Variable datetime_min : datetime.
(** [d.strftime('%Y-%m-%d')] *)
Variable strftime_date : datetime -> str.
(** [datetime.strptime(month, '%Y-%m').strftime('%B %Y')], [None] when it
    raises. *)
Variable strptime_month : str -> option str.
(** [s.lower()] on a [str]. *)
Variable str_lower : str -> str.

(** The key of the sort: [x['date'] or datetime.min]. *)
Definition date_key (c : index_entry datetime) : datetime :=
  match entry_date c with
  | Some d => d
  | None => datetime_min
  end.

(** The first two loops: the conversations by month, each month sorted
    by date, the latest first. *)
Definition group_by_month (conv_data : list (index_entry datetime))
    : list (str * list (index_entry datetime)) :=
  let by_month :=
    foldl (fun by_month c => month_append (entry_month c) c by_month)
      [] conv_data in
  (fun '(month, convs) => (month, py_sorted datetime_lt date_key true convs))
    <$> by_month.

(** [for month in sorted(by_month.keys(), reverse=True)] with
    [convs = by_month[month]]: the months in the order of their sections,
    each with its conversations in the order of their rows. *)
Definition index_groups (conv_data : list (index_entry datetime))
    : list (str * list (index_entry datetime)) :=
  let by_month := group_by_month conv_data in
  (fun month => (month, month_convs month by_month))
    <$> py_sorted str_lt id true by_month.*1.

(** The heading of a month. *)
Definition month_display (month : str) : str :=
  if decide (month = pystr "Unknown") then "Unknown Date"
  else match strptime_month month with
       | Some display => display
       | None => month
       end.

(** What is written for one conversation: the two search attributes, the
    link and its text, the date, the message count and, when it is not
    empty, the preview. *)
Record index_row : Type := IndexRow {
  row_title_search : str;
  row_preview_search : str;
  row_href : str;
  row_title : str;
  row_date : str;
  row_message_count : Z;
  row_preview : option str
}.

(** What is written for one month. *)
Record index_section : Type := IndexSection {
  section_month : str;
  section_display : str;
  section_count : nat;
  section_rows : list index_row
}.

(** The body of the loop over the conversations of a month. *)
Definition index_row_of (c : index_entry datetime) : outcome index_row :=
  let date_str := match entry_date c with
                  | Some d => strftime_date d
                  | None => pystr "Unknown"
                  end in
  title_escaped ← escape_html (entry_title c);
  preview_escaped ← escape_html (JStr (entry_preview c));
  title_lower ← py_lower str_lower (entry_title c);
  title_search ← escape_js_string (JStr title_lower);
  preview_lower ← py_lower str_lower (JStr (entry_preview c));
  preview_search ← escape_js_string (JStr preview_lower);
  Ok (IndexRow title_search preview_search (entry_filename c) title_escaped
        date_str (entry_message_count c)
        (if truthy (JStr preview_escaped) then Some preview_escaped
         else None)).

(** [for c in convs]: the rows of a month, in order. *)
Fixpoint index_rows (convs : list (index_entry datetime))
    : outcome (list index_row) :=
  match convs with
  | [] => Ok []
  | c :: rest =>
      row ← index_row_of c; rows ← index_rows rest; Ok (row :: rows)
  end.

(** The body of the loop over the months. *)
Definition index_section_of (group : str * list (index_entry datetime))
    : outcome index_section :=
  rows ← index_rows group.2;
  Ok (IndexSection group.1 (month_display group.1) (length group.2) rows).

Fixpoint index_sections_of (groups : list (str * list (index_entry datetime)))
    : outcome (list index_section) :=
  match groups with
  | [] => Ok []
  | group :: rest =>
      section ← index_section_of group;
      sections ← index_sections_of rest;
      Ok (section :: sections)
  end.

(** [generate_html_index(conv_data, output_file)]: the number of
    conversations in the statistics line and the sections of the page. *)
Definition generate_html_index (conv_data : list (index_entry datetime))
    : outcome (nat * list index_section) :=
  sections ← index_sections_of (index_groups conv_data);
  Ok (length conv_data, sections).

(** [main] from the loaded export on: the files written, then the
    index. *)
Definition export_run (conversations : json)
    : outcome (list (str * str) * (nat * list index_section)) :=
  st ← export_all datetime fromtimestamp strftime_minute strftime_day
         strftime_month str_title conversations;
  index ← generate_html_index (conv_data st);
  Ok (files st, index).

End Index.

(** ** Concrete inputs *)

Definition text_message (r : string) (t : string) : json :=
  JObj [(pystr "author", JObj [(pystr "role", JStr r)]);
        (pystr "content",
         JObj [(pystr "content_type", JStr "text");
               (pystr "parts", JArr [JStr t])])].

(** The end-to-end scenario of the specification. *)
Definition scenario : dict :=
  [(pystr "root", JObj [(pystr "parent", JNull);
                        (pystr "children", JArr [JStr "a"])]);
   (pystr "a", JObj [(pystr "parent", JStr "root");
                     (pystr "message", text_message "user" "Hi");
                     (pystr "children", JArr [JStr "b"])]);
   (pystr "b", JObj [(pystr "parent", JStr "a");
                     (pystr "message", text_message "assistant" "Hello");
                     (pystr "children", JArr [])])].

(** A single node, with a null parent and nothing else. *)
Definition bare_root : dict := [(pystr "r", JObj [(pystr "parent", JNull)])].

(** Missing fields, a null message, an unsupported content type, parts of
    every kind, and children that are not in the mapping. *)
Definition ragged : dict :=
  [(pystr "root", JObj [(pystr "message", JNull);
                        (pystr "children",
                         JArr [JStr "x"; JStr "gone"; JInt 7; JStr "y"])]);
   (pystr "x",
    JObj [(pystr "parent", JStr "root");
          (pystr "message",
           JObj [(pystr "author", JObj [(pystr "role", JStr "user")]);
                 (pystr "content",
                  JObj [(pystr "content_type", JStr "multimodal_text");
                        (pystr "parts",
                         JArr [JInt 5; JNull;
                               JObj [(pystr "k", JBool true)];
                               JObj [(pystr "content_type",
                                      JStr "image_asset_pointer")];
                               JStr "hi"])])])]);
   (pystr "y",
    JObj [(pystr "message",
           JObj [(pystr "content",
                  JObj [(pystr "content_type", JStr "tether_quote")])])])].

Definition role_message (r : string) : json :=
  JObj [(pystr "author", JObj [(pystr "role", JStr r)])].

(** Every node has a parent, and no message has a content. *)
Definition orphans : dict :=
  [(pystr "a", JObj [(pystr "parent", JStr "b");
                     (pystr "message", role_message "user")]);
   (pystr "b", JObj [(pystr "parent", JStr "a");
                     (pystr "message", role_message "assistant")]);
   (pystr "c", JObj [(pystr "parent", JStr "a");
                     (pystr "message", role_message "tool")])].

(** [c] is a child of both [a] and [b]; [b] points back to [root] and
    [c] back to [a]. *)
Definition diamond : dict :=
  [(pystr "root", JObj [(pystr "children", JArr [JStr "a"; JStr "b"])]);
   (pystr "a", JObj [(pystr "parent", JStr "root");
                     (pystr "message", text_message "user" "one");
                     (pystr "children", JArr [JStr "c"])]);
   (pystr "b", JObj [(pystr "parent", JStr "root");
                     (pystr "message", text_message "assistant" "two");
                     (pystr "children", JArr [JStr "c"; JStr "root"])]);
   (pystr "c", JObj [(pystr "parent", JStr "a");
                     (pystr "message", text_message "user" "three");
                     (pystr "children", JArr [JStr "a"])])].




(** A code message of the assistant without a text field. *)
Definition code_content : dict := [(pystr "content_type", JStr "code")].

Definition code_message : dict :=
  [(pystr "author", JObj [(pystr "role", JStr "assistant")]);
   (pystr "content", JObj code_content)].

Definition code_only : dict :=
  [(pystr "n", JObj [(pystr "message", JObj code_message)])].





(** A user message of 300 characters: 100 times a, a newline, 199 times
    b. *)
Definition long_text : str :=
  replicate 100 97%N ++ [10%N] ++ replicate 199 98%N.

Definition long_message : dict :=
  [(pystr "n",
    JObj [(pystr "message",
           JObj [(pystr "author", JObj [(pystr "role", JStr "user")]);
                 (pystr "content",
                  JObj [(pystr "content_type", JStr "text");
                        (pystr "parts", JArr [JStr long_text])])])])].

(** A user message with whitespace at both ends and a newline inside: a
    space, a newline, ab, a newline, 200 times c, a space, a newline. *)
Definition untidy_text : str :=
  [32; 10; 97; 98; 10]%N ++ replicate 200 99%N ++ [32; 10]%N.

Definition untidy_message : dict :=
  [(pystr "n",
    JObj [(pystr "message",
           JObj [(pystr "author", JObj [(pystr "role", JStr "user")]);
                 (pystr "content",
                  JObj [(pystr "content_type", JStr "text");
                        (pystr "parts", JArr [JStr untidy_text])])])])].

(** Three conversations: two whose titles sanitize to the same name, and
    one whose title is null. *)
Definition three_conversations : json :=
  JArr [JObj [(pystr "title", JStr "Trip: a/b");
              (pystr "mapping", JObj scenario)];
        JObj [(pystr "title", JStr "Trip ab")];
        JObj [(pystr "title", JNull); (pystr "mapping", JObj orphans)]].

(** A text message of the user with two string parts. *)
Definition two_parts_content : dict :=
  [(pystr "content_type", JStr "text");
   (pystr "parts", JArr (JStr <$> [pystr "one"; pystr "two"]))].

Definition two_parts_message : dict :=
  [(pystr "author", JObj [(pystr "role", JStr "user")]);
   (pystr "content", JObj two_parts_content)].

(** Three conversations with titles that are strings, the first two with
    the same file name. *)
Definition titled_conversations : json :=
  JArr [JObj [(pystr "title", JStr "Trip: a/b");
              (pystr "mapping", JObj scenario)];
        JObj [(pystr "title", JStr "Trip ab")];
        JObj [(pystr "mapping", JObj orphans)]].

(** Entries of [conv_data] with dates, for dates that are numbers: two
    months and a conversation without date, two conversations of the
    same date. *)
Definition dated_entries : list (index_entry Z) :=
  [IndexEntry (JStr "a") (Some 5%Z) "f1.md" "hello" 2%Z "2024-01";
   IndexEntry (JStr "b") None "f2.md" [] 0%Z "Unknown";
   IndexEntry (JStr "c") (Some 9%Z) "f3.md" "x" 1%Z "2024-02";
   IndexEntry (JStr "d") (Some 7%Z) "f4.md" "y" 1%Z "2024-01";
   IndexEntry (JStr "e") (Some 5%Z) "f5.md" "z" 1%Z "2024-01"].

(** ** Results *)

(** C1. On the end-to-end scenario the thread is the user's "Hi" followed
    by the assistant's "Hello" (neither has a [create_time], so [time] is
    [None]), the message count is 2 and the preview is "Hi". *)
Theorem scenario_end_to_end :
  build_message_thread (JObj scenario)
  = Ok [Msg "user" "Hi" JNull; Msg "assistant" "Hello" JNull]
  /\ count_messages (JObj scenario) = Ok 2%Z
  /\ get_first_user_message (JObj scenario) = Ok (pystr "Hi").
Proof. vm_compute. auto. Qed.

(** *** Outcomes *)

Lemma bind_Ok {A B : Type} (m : outcome A) (f : A -> outcome B) (b : B) :
  m ≫= f = Ok b -> exists a, m = Ok a /\ f a = Ok b.
Proof. destruct m; simpl; intros H; try discriminate. eauto. Qed.

Lemma bind_finished {A B : Type} (m : outcome A) (f : A -> outcome B) :
  finished m -> (forall a, m = Ok a -> finished (f a)) -> finished (m ≫= f).
Proof.
  unfold finished. destruct m; simpl; intros Hm Hf; try done.
  by apply Hf.
Qed.

Lemma bind_returns {A B : Type} (m : outcome A) (f : A -> outcome B) :
  returns m -> (forall a, m = Ok a -> returns (f a)) -> returns (m ≫= f).
Proof. intros [a ->] Hf. simpl. by apply Hf. Qed.

Lemma py_get_finished o k dflt : finished (py_get o k dflt).
Proof. by destruct o. Qed.

Lemma py_iter_finished x : finished (py_iter x).
Proof. by destruct x. Qed.

Lemma py_contains_finished k x : finished (py_contains k x).
Proof. by destruct x. Qed.

Lemma py_getitem_finished x k : finished (py_getitem x k).
Proof. destruct x; try done. simpl. by destruct (dict_lookup k fields). Qed.

Lemma py_join_finished sep items : finished (py_join sep items).
Proof. unfold py_join. by destruct (all_str items). Qed.

Lemma extract_message_text_finished message :
  finished (extract_message_text message).
Proof.
  unfold extract_message_text.
  destruct (negb (truthy message)); [done|].
  apply bind_finished; [apply py_contains_finished|intros has _].
  destruct (negb has); [done|].
  apply bind_finished; [apply py_getitem_finished|intros content _].
  apply bind_finished; [apply py_get_finished|intros ct _].
  destruct (is_str ct "text" || is_str ct "multimodal_text").
  - apply bind_finished; [apply py_get_finished|intros parts _].
    apply bind_finished; [apply py_iter_finished|intros items _].
    simpl. destruct (collect_parts items); [done|].
    apply bind_finished; [apply py_join_finished|done].
  - destruct (is_str ct "code"); [|done].
    apply bind_finished; [apply py_get_finished|done].
Qed.

Lemma visit_message_finished node st : finished (visit_message node st).
Proof.
  unfold visit_message.
  apply bind_finished; [apply py_get_finished|intros message _].
  destruct (truthy message); [|done].
  apply bind_finished; [apply py_get_finished|intros ao _].
  apply bind_finished; [apply py_get_finished|intros author _].
  apply bind_finished; [apply extract_message_text_finished|intros t _].
  apply bind_finished; [apply py_get_finished|intros ct _].
  destruct author, t; try done.
  by destruct (text_truthy (Some l) && shown_role (JStr s)).
Qed.

(** [visit_message] reads the state only to append to [messages]. *)
Lemma visit_message_frame node st :
  visit_message node st =
  match visit_message node (TState ∅ []) with
  | Ok e => Ok (TState (visited st) (messages st ++ messages e))
  | Raise x => Raise x
  | OutOfFuel => OutOfFuel
  end.
Proof.
  assert (Hst : Ok st = Ok (TState (visited st) (messages st ++ []))).
  { rewrite app_nil_r. by destruct st. }
  unfold visit_message.
  destruct (py_get node "message" JNull) as [message| |]; simpl; try done.
  destruct (truthy message); [|done].
  destruct (py_get message "author" (JObj [])) as [ao| |]; simpl; try done.
  destruct (py_get ao "role" (JStr "unknown")) as [author| |]; simpl; try done.
  destruct (extract_message_text message) as [t| |]; simpl; try done.
  destruct (py_get message "create_time" JNull) as [ct| |]; simpl; try done.
  destruct author, t; try done.
  by destruct (text_truthy (Some l) && shown_role (JStr s)).
Qed.

(** *** The traversal *)

Section Traversal.

Variable nodes : gmap str json.

Lemma visits_nil st : visits nodes [] st st.
Proof.
  repeat split; simpl.
  - constructor.
  - intros x Hx. by apply not_elem_of_nil in Hx.
  - set_solver.
  - by rewrite app_nil_r.
Qed.

Lemma visits_app o1 o2 st1 st2 st3 :
  visits nodes o1 st1 st2 -> visits nodes o2 st2 st3 -> visits nodes (o1 ++ o2) st1 st3.
Proof.
  intros (Hn1 & Hf1 & Hv1 & Hm1) (Hn2 & Hf2 & Hv2 & Hm2).
  repeat split.
  - apply NoDup_app. split; [done|]. split; [|done].
    intros x Hx1 Hx2. apply (Hf2 x Hx2). rewrite Hv1. set_solver.
  - intros x Hx. apply elem_of_app in Hx as [Hx|Hx]; [by apply Hf1|].
    intros Hv. apply (Hf2 x Hx). rewrite Hv1. set_solver.
  - rewrite Hv2, Hv1, list_to_set_app_L. set_solver.
  - rewrite Hm2, Hm1, fmap_app, concat_app. by rewrite app_assoc.
Qed.

Lemma visits_one id st :
  id ∉ visited st ->
  visits nodes [id] st
    (TState ({[id]} ∪ visited st) (messages st ++ node_messages nodes id)).
Proof.
  intros Hid. repeat split; simpl.
  - apply NoDup_singleton.
  - intros x Hx. apply list_elem_of_singleton in Hx. by subst.
  - set_solver.
  - by rewrite app_nil_r.
Qed.

Lemma falsy_node_messages id node :
  nodes !! id = Some node -> truthy node = false -> node_messages nodes id = [].
Proof.
  intros Hn Hf. unfold node_messages. rewrite Hn.
  destruct node as [| | | | | |[|]]; try done.
Qed.

Lemma for_each_visits (f : json -> tstate -> outcome tstate) :
  (forall x s s', f x s = Ok s' -> exists o, visits nodes o s s') ->
  forall xs s s', for_each f xs s = Ok s' -> exists o, visits nodes o s s'.
Proof.
  intros Hf xs. induction xs as [|x xs IH]; simpl; intros s s' H.
  - injection H as <-. exists []. apply visits_nil.
  - apply bind_Ok in H as (s1 & H1 & H2).
    apply Hf in H1 as [o1 Ho1]. apply IH in H2 as [o2 Ho2].
    exists (o1 ++ o2). by eapply visits_app.
Qed.

(** A traversal that returns has visited a duplicate-free list of ids and
    appended, in that order, what each of them adds. *)
Lemma traverse_visits fuel : forall id st st',
  traverse nodes fuel id st = Ok st' -> exists order, visits nodes order st st'.
Proof.
  induction fuel as [|fuel IH]; simpl; intros id st st' H; [done|].
  assert (Hnil : Ok st = Ok st' -> exists order, visits nodes order st st').
  { intros [= <-]. exists []. apply visits_nil. }
  destruct id as [| | | |id| |]; try done; try by apply Hnil.
  destruct (decide (id ∈ visited st)) as [|Hid]; [by apply Hnil|].
  pose proof (visits_one id st Hid) as Hone.
  destruct (nodes !! id) as [node|] eqn:Hnode.
  - destruct (truthy node) eqn:Htruthy; simpl in H.
    + apply bind_Ok in H as (st1 & Hv & H).
      apply bind_Ok in H as (children & _ & H).
      apply bind_Ok in H as (ids & _ & H).
      apply (for_each_visits _ IH) in H as [o Ho].
      exists ([id] ++ o). eapply visits_app; [|exact Ho].
      rewrite visit_message_frame in Hv. unfold node_messages in Hone.
      rewrite Hnode in Hone.
      destruct (visit_message node (TState ∅ [])); try done.
      injection Hv as <-. exact Hone.
    + injection H as <-. exists [id].
      rewrite (falsy_node_messages id node), app_nil_r in Hone; done.
  - injection H as <-. exists [id].
    unfold node_messages in Hone. rewrite Hnode, app_nil_r in Hone. done.
Qed.

Lemma visits_subseteq order st st' :
  visits nodes order st st' -> visited st ⊆ visited st'.
Proof. intros (_ & _ & -> & _). set_solver. Qed.

Lemma unvisited_mono st st' :
  visited st ⊆ visited st' -> size (unvisited nodes st') <= size (unvisited nodes st).
Proof. clear py_str. intros H. apply subseteq_size. unfold unvisited. set_solver. Qed.

Lemma unvisited_mark id st node :
  nodes !! id = Some node -> id ∉ visited st ->
  size (unvisited nodes (TState ({[id]} ∪ visited st) (messages st)))
  < size (unvisited nodes st).
Proof.
  clear py_str. intros Hn Hid. apply subset_size. unfold unvisited. simpl.
  assert (id ∈ dom nodes) by (apply elem_of_dom; eauto).
  set_solver.
Qed.

Lemma for_each_finished (f : json -> tstate -> outcome tstate)
    (I : tstate -> Prop) :
  (forall x s, I s -> finished (f x s)) ->
  (forall x s s', I s -> f x s = Ok s' -> I s') ->
  forall xs s, I s -> finished (for_each f xs s).
Proof.
  intros Hfin Hinv xs. induction xs as [|x xs IH]; simpl; intros s Hs; [done|].
  apply bind_finished; [by apply Hfin|].
  intros s1 H1. apply IH. by eapply Hinv.
Qed.

(** Fuel above the number of unvisited nodes ids is never used up. *)
Lemma traverse_finished fuel : forall id st,
  size (unvisited nodes st) < fuel -> finished (traverse nodes fuel id st).
Proof.
  induction fuel as [|fuel IH]; simpl; intros id st Hsz; [lia|].
  destruct id as [| | | |id| |]; try done.
  destruct (decide (id ∈ visited st)) as [|Hid]; [done|].
  destruct (nodes !! id) as [node|] eqn:Hnode; [|done].
  destruct (truthy node); simpl; [|done].
  pose proof (unvisited_mark id st node Hnode Hid) as Hlt.
  apply bind_finished; [apply visit_message_finished|intros st1 H1].
  apply bind_finished; [apply py_get_finished|intros children _].
  apply bind_finished; [apply py_iter_finished|intros ids _].
  apply (for_each_finished _ (fun s => size (unvisited nodes s) < fuel)).
  - intros x s Hs. by apply IH.
  - intros x s s' Hs Hx. apply traverse_visits in Hx as [o Ho].
    apply visits_subseteq, unvisited_mono in Ho. lia.
  - rewrite visit_message_frame in H1.
    destruct (visit_message node _); try done.
    injection H1 as <-. unfold unvisited in *. simpl in *. lia.
Qed.

Lemma for_each_ext (f g : json -> tstate -> outcome tstate) :
  (forall x s, finished (f x s) -> g x s = f x s) ->
  forall xs s, finished (for_each f xs s) -> for_each g xs s = for_each f xs s.
Proof.
  intros Hfg xs. induction xs as [|x xs IH]; simpl; intros s Hs; [done|].
  assert (Hx : finished (f x s)).
  { intros E. apply Hs. by rewrite E. }
  rewrite (Hfg x s Hx). destruct (f x s) as [s1| |]; simpl in *; try done.
  by apply IH.
Qed.

(** More fuel does not change a traversal that finished. *)
Lemma traverse_more_fuel fuel : forall id st,
  finished (traverse nodes fuel id st) ->
  traverse nodes (S fuel) id st = traverse nodes fuel id st.
Proof.
  induction fuel as [|fuel IH]; intros id st Hfin; [done|].
  remember (S fuel) as n eqn:Hn. simpl. subst n. simpl in Hfin.
  destruct id as [| | | |id| |]; try done.
  change (traverse nodes (S fuel) (JStr id) st) with
    (if decide (id ∈ visited st) then Ok st else
     let st := TState ({[id]} ∪ visited st) (messages st) in
     match nodes !! id with
     | None => Ok st
     | Some node =>
         if negb (truthy node) then Ok st else
         st ← visit_message node st;
         children ← py_get node "children" (JArr []);
         child_ids ← py_iter children;
         for_each (traverse nodes fuel) child_ids st
     end).
  destruct (decide (id ∈ visited st)); [done|]. simpl.
  destruct (nodes !! id) as [node|]; [|done].
  destruct (truthy node); simpl in *; [|done].
  destruct (visit_message node _) as [st1| |]; simpl in *; try done.
  destruct (py_get node "children" (JArr [])) as [ch| |]; simpl in *; try done.
  destruct (py_iter ch) as [ids| |]; simpl in *; try done.
  apply for_each_ext; [|done]. intros x s Hx. by apply IH.
Qed.

Lemma traverse_fuel_le fuel fuel' id st :
  fuel <= fuel' -> finished (traverse nodes fuel id st) ->
  traverse nodes fuel' id st = traverse nodes fuel id st.
Proof.
  induction 1 as [|m Hle IH]; intros Hfin; [done|].
  rewrite traverse_more_fuel; [by apply IH|]. by rewrite IH.
Qed.

End Traversal.

(** *** The two loops before the traversal *)

Lemma index_node_indexed cm nodes id node :
  node_indexed node = true ->
  exists cm', index_node (cm, nodes) (id, node) = Ok (cm', <[id := node]> nodes).
Proof.
  destruct node as [| | | | | |d]; try done. unfold node_indexed, field_ok.
  intros H. unfold index_node, py_get, dict_get. simpl.
  destruct (dict_lookup "parent" d) as [parent|]; simpl; [|eauto].
  destruct (truthy parent); [|eauto].
  destruct parent; try done; eauto.
Qed.

Lemma index_node_nodes cm nodes id node cm' nodes' :
  index_node (cm, nodes) (id, node) = Ok (cm', nodes') ->
  nodes' = <[id := node]> nodes.
Proof.
  unfold index_node. intros H. apply bind_Ok in H as (parent & _ & H).
  destruct (truthy parent); [|congruence].
  destruct parent; congruence.
Qed.

Lemma build_index_nodes mapping : forall cm nodes cm' nodes',
  build_index (cm, nodes) mapping = Ok (cm', nodes') ->
  nodes' = foldl (fun m kv => <[kv.1 := kv.2]> m) nodes mapping.
Proof.
  induction mapping as [|[id node] rest IH]; simpl; intros cm nodes cm' nodes' H.
  - congruence.
  - apply bind_Ok in H as ([cm1 nodes1] & H1 & H2).
    apply index_node_nodes in H1 as ->. by apply IH in H2.
Qed.

Lemma build_index_indexed mapping : forall cm nodes,
  forallb (fun kv => node_indexed kv.2) mapping = true ->
  exists cm', build_index (cm, nodes) mapping
              = Ok (cm', foldl (fun m kv => <[kv.1 := kv.2]> m) nodes mapping).
Proof.
  induction mapping as [|[id node] rest IH]; intros cm nodes H; [by eexists|].
  simpl in H. apply andb_prop in H as [Hn Hrest]. cbn [build_index foldl].
  destruct (index_node_indexed cm nodes id node Hn) as [cm1 ->].
  by apply IH.
Qed.

Lemma find_root_objects mapping :
  forallb (fun kv => is_obj kv.2) mapping = true ->
  find_root mapping = Ok (first_parentless mapping).
Proof.
  unfold first_parentless.
  induction mapping as [|[id node] rest IH]; simpl; intros H; [done|].
  apply andb_prop in H as [Hn Hrest]. destruct node as [| | | | | |d]; try done.
  simpl. unfold dict_get. unfold parent_absent at 1. simpl.
  destruct (dict_lookup "parent" d) as [[]|]; simpl; auto.
Qed.

Lemma node_indexed_is_obj node : node_indexed node = true -> is_obj node = true.
Proof. by destruct node. Qed.

Lemma forallb_impl {A : Type} (P Q : A -> bool) (l : list A) :
  (forall x, P x = true -> Q x = true) ->
  forallb P l = true -> forallb Q l = true.
Proof.
  intros HPQ. induction l as [|x l IH]; simpl; [done|].
  intros H. apply andb_prop in H as [Hx Hl]. by rewrite HPQ, IH.
Qed.

Lemma nodes_of_elem mapping : forall (acc : gmap str json) id node,
  foldl (fun m kv => <[kv.1 := kv.2]> m) acc mapping !! id = Some node ->
  (id, node) ∈ mapping \/ acc !! id = Some node.
Proof.
  induction mapping as [|[k v] rest IH]; simpl; intros acc id node H; [auto|].
  apply IH in H as [H|H].
  - left. by apply list_elem_of_further.
  - destruct (decide (k = id)) as [->|Hne].
    + rewrite lookup_insert_eq in H. injection H as ->. left. apply list_elem_of_here.
    + rewrite lookup_insert_ne in H by done. auto.
Qed.

Lemma nodes_of_lookup mapping id node :
  nodes_of mapping !! id = Some node -> (id, node) ∈ mapping.
Proof.
  intros H. apply nodes_of_elem in H as [H|H]; [done|].
  by rewrite lookup_empty in H.
Qed.

(** How [build_message_thread] runs once the first loop has passed. *)
Lemma build_message_thread_indexed mapping :
  forallb (fun kv => node_indexed kv.2) mapping = true ->
  build_message_thread (JObj mapping) =
  match first_parentless mapping with
  | None | Some [] => Ok []
  | Some root => thread_from (nodes_of mapping) root
  end.
Proof.
  intros H. unfold build_message_thread.
  destruct mapping as [|entry rest] eqn:Hm; [done|]. rewrite <- Hm in *.
  assert (truthy (JObj mapping) = true) as -> by by subst. simpl.
  destruct (build_index_indexed mapping ∅ ∅ H) as [cm ->]. simpl.
  rewrite find_root_objects; [done|].
  eapply forallb_impl; [|exact H]. intros kv. apply node_indexed_is_obj.
Qed.

(** What a thread that was returned is made of. *)
Lemma build_message_thread_visits mapping msgs :
  build_message_thread (JObj mapping) = Ok msgs ->
  exists order st,
    visits (nodes_of mapping) order (TState ∅ []) st /\ msgs = messages st.
Proof.
  unfold build_message_thread. intros H.
  assert (Hnil : Ok [] = Ok msgs -> exists order st,
    visits (nodes_of mapping) order (TState ∅ []) st /\ msgs = messages st).
  { intros [= <-]. exists [], (TState ∅ []). split; [apply visits_nil|done]. }
  destruct (negb (truthy (JObj mapping))); [by apply Hnil|].
  apply bind_Ok in H as ([cm nodes] & Hidx & H).
  apply build_index_nodes in Hidx. fold (nodes_of mapping) in Hidx. subst nodes.
  apply bind_Ok in H as (root & _ & H).
  destruct root as [[|c root]|]; try by apply Hnil.
  apply bind_Ok in H as (st & Ht & [= <-]).
  apply traverse_visits in Ht as [order Ho]. eauto.
Qed.

(** *** One node *)

Lemma py_get_Ok o k dflt v :
  py_get o k dflt = Ok v ->
  exists d, o = JObj d /\ v = default dflt (dict_lookup k d).
Proof. destruct o; try done. intros [= <-]. eauto. Qed.

Lemma is_str_true v s : is_str v s = true -> v = JStr s.
Proof.
  destruct v; try done. simpl. intros H. apply bool_decide_eq_true in H.
  by subst.
Qed.

Lemma shown_role_elem r :
  shown_role (JStr r) = true ->
  r ∈ [pystr "user"; pystr "assistant"; pystr "tool"].
Proof.
  unfold shown_role. intros H.
  apply orb_prop in H as [H|H]; [apply orb_prop in H as [H|H]|];
    apply is_str_true in H; injection H as ->; set_solver.
Qed.

(** Visiting a node appends nothing, or the one entry its message is
    shown as. *)
Lemma visit_message_entry node st :
  visit_message node (TState ∅ []) = Ok st ->
  messages st = [] \/ exists m, messages st = [m] /\ shown_as node m.
Proof.
  unfold visit_message. intros H.
  apply bind_Ok in H as (message & Hmsg & H).
  destruct (truthy message) eqn:Htruthy; [|injection H as <-; by left].
  apply bind_Ok in H as (ao & Hao & H).
  apply bind_Ok in H as (author & Hauthor & H).
  apply bind_Ok in H as (t & Ht & H).
  apply bind_Ok in H as (ct & Hct & H).
  destruct author as [| | | |r| |], t as [t|];
    try (injection H as <-; by left).
  destruct (text_truthy (Some t) && shown_role (JStr r)) eqn:Hshow;
    [|injection H as <-; by left].
  injection H as <-. right. eexists. split; [done|].
  apply andb_prop in Hshow as [Htext Hrole].
  apply py_get_Ok in Hmsg as (d & -> & ->).
  apply py_get_Ok in Hao as (md & Hmd & ->).
  apply py_get_Ok in Hauthor as (ad & Had & Hr).
  apply py_get_Ok in Hct as (md' & Hmd' & ->).
  unfold shown_as, field, message_role. simpl.
  destruct (dict_lookup "message" d) as [message|]; [|done]. simpl in *.
  subst message. injection Hmd' as <-.
  exists (JObj md). repeat split; try done.
  - by destruct t.
  - unfold field. destruct (dict_lookup "author" md) as [ao|]; simpl in *.
    + subst ao. done.
    + injection Had as <-. done.
  - by apply shown_role_elem.
Qed.

Lemma node_messages_length nodes id : length (node_messages nodes id) <= 1.
Proof.
  unfold node_messages. destruct (nodes !! id) as [node|]; simpl; [|lia].
  destruct (visit_message node (TState ∅ [])) as [st| |] eqn:H; simpl; try lia.
  apply visit_message_entry in H as [->|(m & -> & _)]; simpl; lia.
Qed.

Lemma node_messages_shown nodes id m :
  m ∈ node_messages nodes id ->
  exists node, nodes !! id = Some node /\ shown_as node m.
Proof.
  unfold node_messages. destruct (nodes !! id) as [node|]; [|by intros ?%not_elem_of_nil].
  destruct (visit_message node (TState ∅ [])) as [st| |] eqn:H;
    try by intros ?%not_elem_of_nil.
  apply visit_message_entry in H as [->|(m' & -> & Hm')].
  - by intros ?%not_elem_of_nil.
  - intros ->%list_elem_of_singleton. eauto.
Qed.

(** *** No exception on the shape of the export *)




Lemma field_ok_get (P : json -> bool) k d dflt :
  field_ok P k d = true -> P dflt = true -> P (dict_get d k dflt) = true.
Proof.
  unfold field_ok, dict_get. by destruct (dict_lookup k d).
Qed.

Lemma collect_parts_str l :
  forallb part_ok l = true -> exists strs, all_str (collect_parts l) = Some strs.
Proof.
  unfold collect_parts. induction l as [|part l IH]; simpl; [eauto|].
  intros H. apply andb_prop in H as [Hp Hl]. destruct (IH Hl) as [strs Hs].
  unfold part_ok in Hp. destruct (part_text part) as [[]|]; try done; [|eauto].
  change (list_omap json json part_text l) with (omap part_text l).
  cbn [all_str]. rewrite Hs. simpl. eauto.
Qed.

Lemma extract_message_text_shape message :
  message_ok message = true -> returns (extract_message_text message).
Proof.
  unfold extract_message_text.
  destruct message as [| | | | | |m]; try done; [by eexists|].
  intros Hok. apply andb_prop in Hok as [_ Hcontent].
  destruct (negb (truthy (JObj m))); [by eexists|].
  unfold py_contains, dict_has. simpl. unfold field_ok in Hcontent.
  destruct (dict_lookup "content" m) as [content|] eqn:Hc; simpl.
  2:{ by eexists. }
  destruct content as [| | | | | |c]; try done. simpl.
  destruct (is_str _ "text" || is_str _ "multimodal_text").
  - pose proof (field_ok_get parts_ok "parts" c (JArr []) Hcontent eq_refl) as Hp.
    destruct (dict_get c "parts" (JArr [])) as [| | | | |l|]; try done. simpl.
    apply collect_parts_str in Hp as [strs Hs].
    destruct (collect_parts l) eqn:Hl; [by eexists|].
    unfold py_join. rewrite Hs. simpl. by eexists.
  - destruct (is_str _ "code"); by eexists.
Qed.






Lemma thread_from_finished nodes root : finished (thread_from nodes root).
Proof.
  unfold thread_from. apply bind_finished; [|done].
  apply traverse_finished. unfold unvisited. simpl.
  assert (size (dom nodes ∖ (∅ : gset str)) <= size (dom nodes)).
  { apply subseteq_size. set_solver. }
  rewrite size_dom in H. lia.
Qed.

Lemma index_node_finished acc entry : finished (index_node acc entry).
Proof.
  destruct acc as [cm nodes], entry as [id node]. unfold index_node.
  apply bind_finished; [apply py_get_finished|intros parent _].
  destruct (truthy parent); [|done]. by destruct parent.
Qed.

Lemma build_index_finished mapping : forall acc,
  finished (build_index acc mapping).
Proof.
  induction mapping as [|entry rest IH]; intros acc; [done|].
  cbn [build_index]. apply bind_finished; [apply index_node_finished|].
  intros acc' _. apply IH.
Qed.

Lemma find_root_finished mapping : finished (find_root mapping).
Proof.
  induction mapping as [|[id node] rest IH]; [done|]. cbn [find_root].
  apply bind_finished; [apply py_get_finished|intros parent _].
  by destruct parent.
Qed.

Lemma build_message_thread_finished mapping :
  finished (build_message_thread mapping).
Proof.
  unfold build_message_thread. destruct (negb (truthy mapping)); [done|].
  destruct mapping as [| | | | | |items]; try done.
  apply bind_finished; [apply build_index_finished|intros [cm nodes] _].
  apply bind_finished; [apply find_root_finished|intros root _].
  destruct root as [[|c root]|]; try done.
  apply (thread_from_finished nodes (c :: root)).
Qed.


(** *** The thread *)

(** C2, as the code has it. On a mapping whose nodes are objects with a
    parent that can be a dictionary key, [build_message_thread] returns
    the empty sequence, without an error, when no node has an absent
    (missing or null) parent, and otherwise returns the depth-first
    traversal started at the first such node in iteration order, the id
    of that node not being the empty string. *)
Theorem build_message_thread_root (mapping : dict) :
  forallb (fun kv => node_indexed kv.2) mapping = true ->
  (first_parentless mapping = None ->
   build_message_thread (JObj mapping) = Ok [])
  /\ (forall root, first_parentless mapping = Some root -> root <> [] ->
      build_message_thread (JObj mapping)
      = thread_from (nodes_of mapping) root).
Proof.
  intros H. rewrite (build_message_thread_indexed mapping H). split.
  - by intros ->.
  - intros root -> Hroot. by destruct root.
Qed.

(** C3. A returned thread is the concatenation, over a list of node ids
    without duplicates, of what each of these nodes adds, which is at
    most one entry: however many paths or cycles lead to a node, it
    contributes at most once. *)
Theorem thread_visits_each_node_once (mapping : dict) (msgs : list msg) :
  build_message_thread (JObj mapping) = Ok msgs ->
  exists order : list str,
    NoDup order
    /\ msgs = concat (node_messages (nodes_of mapping) <$> order)
    /\ forall id, length (node_messages (nodes_of mapping) id) <= 1.
Proof.
  intros H. apply build_message_thread_visits in H as (order & st & Hv & ->).
  destruct Hv as (Hnd & _ & _ & Hm). exists order.
  split; [done|]. split; [done|]. intros id. apply node_messages_length.
Qed.

(** C6. Every entry of a returned thread is what the message of some node
    of the mapping is shown as: its text is the text extracted from that
    message and is not empty, and its role is the author role of that
    message and is one of user, assistant and tool. So a message with
    another role, system say, or without text, adds no entry. *)
Theorem thread_entries_shown (mapping : dict) (msgs : list msg) (m : msg) :
  build_message_thread (JObj mapping) = Ok msgs ->
  m ∈ msgs ->
  exists id node, (id, node) ∈ mapping /\ shown_as node m.
Proof.
  intros H Hm. apply build_message_thread_visits in H as (order & st & Hv & ->).
  destruct Hv as (_ & _ & _ & Hmsgs). rewrite Hmsgs in Hm. simpl in Hm.
  apply list_elem_of_In, in_concat in Hm as (l & Hl & Hml).
  apply list_elem_of_In, list_elem_of_fmap in Hl as (id & -> & _).
  apply list_elem_of_In in Hml.
  apply node_messages_shown in Hml as (node & Hnode & Hshown).
  exists id, node. split; [by apply nodes_of_lookup|done].
Qed.

(** *** The recursion limit *)

Lemma nodes_of_size mapping : size (nodes_of mapping) <= length mapping.
Proof.
  clear py_str. unfold nodes_of.
  assert (forall acc : gmap str json,
            size (foldl (fun m kv => <[kv.1 := kv.2]> m) acc mapping)
            <= size acc + length mapping) as Hgen.
  { induction mapping as [|[k v] rest IH]; intros acc; simpl; [lia|].
    etrans; [apply IH|]. simpl.
    destruct (acc !! k) eqn:Hk.
    - rewrite map_size_insert_Some by eauto. lia.
    - rewrite map_size_insert_None by done. lia. }
  specialize (Hgen ∅). by rewrite map_size_empty in Hgen.
Qed.

Lemma call_cases {A : Type} needs frames (result : outcome A) :
  call needs frames result = Raise RecursionError
  \/ call needs frames result = result.
Proof. unfold call. destruct (decide _); [by left|by right]. Qed.











(** C8. The traversal terminates: fuel above the number of ids of [nodes]
    not visited yet is never used up, whatever the [children] lists are,
    and more fuel gives the same result; [build_message_thread] gives its
    traversal that much and so always finishes, with a thread or an
    exception. *)
Theorem traversal_terminates :
  (forall mapping : json, build_message_thread mapping <> OutOfFuel)
  /\ (forall (nodes : gmap str json) fuel id st,
       size (dom nodes ∖ visited st) < fuel ->
       traverse nodes fuel id st <> OutOfFuel
       /\ forall fuel', fuel <= fuel' ->
            traverse nodes fuel' id st = traverse nodes fuel id st).
Proof.
  split; [apply build_message_thread_finished|].
  intros nodes fuel id st Hsz.
    pose proof (traverse_finished nodes fuel id st Hsz) as Hfin.
    split; [done|]. intros fuel' Hle. by apply traverse_fuel_le.
Qed.

(** *** The preview and the count *)

Lemma message_of_node d :
  field "message" (JObj d) = Some (dict_get d "message" JNull)
  \/ dict_get d "message" JNull = JNull /\ field "message" (JObj d) = None.
Proof.
  unfold field, dict_get. destruct (dict_lookup "message" d); simpl; auto.
Qed.

Lemma falsy_role dflt message r :
  truthy message = false -> r <> [] -> is_str dflt r = false ->
  is_str (message_role dflt message) r = false.
Proof.
  intros Hm Hr Hd. unfold message_role.
  destruct message as [| | | | | |[|]]; simpl; try done.
Qed.

Lemma role_of_message m a dflt :
  dict_get m "author" (JObj []) = JObj a ->
  message_role dflt (JObj m) = dict_get a "role" dflt.
Proof.
  unfold message_role, field, dict_get.
  destruct (dict_lookup "author" m) as [ao|]; simpl.
  - by intros ->.
  - by intros [= <-].
Qed.

Lemma user_text_spec node r :
  user_text node = Ok r -> user_message_text node = r.
Proof.
  unfold user_text. intros H.
  apply bind_Ok in H as (message & Hmsg & H).
  apply py_get_Ok in Hmsg as (d & -> & ->). fold (dict_get d "message" JNull) in H.
  unfold user_message_text.
  destruct (message_of_node d) as [->|[Hnull ->]].
  2:{ rewrite Hnull in H. by injection H as <-. }
  destruct (truthy (dict_get d "message" JNull)) eqn:Htruthy.
  2:{ injection H as <-. by rewrite falsy_role. }
  apply bind_Ok in H as (ao & Hao & H).
  apply py_get_Ok in Hao as (m & Hm & ->). rewrite Hm in *.
  apply bind_Ok in H as (author & Hauthor & H).
  apply py_get_Ok in Hauthor as (a & Ha & ->).
  fold (dict_get m "author" (JObj [])) in Ha.
  rewrite (role_of_message m a JNull Ha). fold (dict_get a "role" JNull) in H.
  destruct (is_str (dict_get a "role" JNull) "user"); [|by injection H as <-].
  apply bind_Ok in H as (t & -> & H).
  destruct t as [[|c t]|]; simpl in H; by injection H as <-.
Qed.

Lemma user_text_shape node : node_ok node = true -> returns (user_text node).
Proof.
  destruct node as [| | | | | |d]; try done. intros Hok.
  apply andb_prop in Hok as [Hok _]. apply andb_prop in Hok as [_ Hmsg].
  pose proof (field_ok_get message_ok "message" d JNull Hmsg eq_refl) as Hm.
  unfold user_text. simpl.
  destruct (dict_get d "message" JNull) as [| | | | | |m] eqn:Hget;
    try done; [by eexists|].
  destruct (truthy (JObj m)); [|by eexists].
  pose proof Hm as Hm'. apply andb_prop in Hm' as [Hauthor _].
  pose proof (field_ok_get is_obj "author" m (JObj []) Hauthor eq_refl) as Ha.
  simpl. destruct (dict_get m "author" (JObj [])) as [| | | | | |a]; try done.
  simpl. destruct (is_str _ "user"); [|by eexists].
  destruct (extract_message_text_shape (JObj m) Hm) as [t ->]. simpl.
  destruct (text_truthy t); by eexists.
Qed.

Lemma first_user_message_spec items s :
  first_user_message items = Ok s -> s = preview_of items.
Proof.
  unfold preview_of, first_user_text.
  induction items as [|[id node] rest IH]; simpl; intros H; [by injection H|].
  apply bind_Ok in H as (found & Hfound & H).
  apply user_text_spec in Hfound. rewrite Hfound.
  destruct found as [t|]; simpl; [by injection H|by apply IH].
Qed.

Lemma first_user_message_shape items :
  export_shape items = true -> returns (first_user_message items).
Proof.
  induction items as [|[id node] rest IH]; simpl; intros H; [by eexists|].
  apply andb_prop in H as [Hn Hrest].
  destruct (user_text_shape node Hn) as [[t|] ->]; simpl; [by eexists|by apply IH].
Qed.

Lemma preview_of_length mapping : length (preview_of mapping) <= 150.
Proof.
  unfold preview_of. destruct (first_user_text mapping); simpl; [|lia].
  rewrite length_take. lia.
Qed.

Lemma counted_spec node b : counted node = Ok b -> user_or_assistant node = b.
Proof.
  unfold counted. intros H.
  apply bind_Ok in H as (message & Hmsg & H).
  apply py_get_Ok in Hmsg as (d & -> & ->). fold (dict_get d "message" JNull) in H.
  unfold user_or_assistant.
  destruct (message_of_node d) as [->|[Hnull ->]].
  2:{ rewrite Hnull in H. by injection H as <-. }
  destruct (truthy (dict_get d "message" JNull)) eqn:Htruthy.
  2:{ injection H as <-. by rewrite !falsy_role. }
  apply bind_Ok in H as (ao & Hao & H).
  apply py_get_Ok in Hao as (m & Hm & ->). rewrite Hm in *.
  apply bind_Ok in H as (role & Hrole & H).
  apply py_get_Ok in Hrole as (a & Ha & ->).
  fold (dict_get m "author" (JObj [])) in Ha.
  rewrite (role_of_message m a JNull Ha). injection H as <-.
  unfold dict_get. by destruct (dict_lookup "role" a).
Qed.

Lemma counted_shape node : node_ok node = true -> returns (counted node).
Proof.
  destruct node as [| | | | | |d]; try done. intros Hok.
  apply andb_prop in Hok as [Hok _]. apply andb_prop in Hok as [_ Hmsg].
  pose proof (field_ok_get message_ok "message" d JNull Hmsg eq_refl) as Hm.
  unfold counted. simpl.
  destruct (dict_get d "message" JNull) as [| | | | | |m] eqn:Hget;
    try done; [by eexists|].
  destruct (truthy (JObj m)); [|by eexists].
  apply andb_prop in Hm as [Hauthor _].
  pose proof (field_ok_get is_obj "author" m (JObj []) Hauthor eq_refl) as Ha.
  simpl. destruct (dict_get m "author" (JObj [])) as [| | | | | |a]; try done.
  by eexists.
Qed.

Lemma count_loop_spec items : forall count n,
  count_loop count items = Ok n ->
  n = (count + count_user_assistant items)%Z.
Proof.
  unfold count_user_assistant.
  induction items as [|[id node] rest IH]; simpl; intros count n H.
  - injection H as <-. lia.
  - apply bind_Ok in H as (c & Hc & H). apply counted_spec in Hc.
    rewrite Hc. apply IH in H. destruct c; simpl length; lia.
Qed.

Lemma count_loop_shape items : forall count,
  export_shape items = true -> returns (count_loop count items).
Proof.
  induction items as [|[id node] rest IH]; simpl; intros count H; [by eexists|].
  apply andb_prop in H as [Hn Hrest].
  destruct (counted_shape node Hn) as [c ->]. simpl. by apply IH.
Qed.

(** *** Trimming, character by character *)

Lemma is_space_chars c : is_space c = true <-> c ∈ whitespace_chars.
Proof.
  clear py_str. split.
  - unfold is_space.
    rewrite !orb_true_iff, !andb_true_iff, !N.leb_le, !N.eqb_eq.
    intros H.
    assert (c = 9 \/ c = 10 \/ c = 11 \/ c = 12 \/ c = 13 \/ c = 28 \/ c = 29
            \/ c = 30 \/ c = 31 \/ c = 32 \/ c = 133 \/ c = 160 \/ c = 5760
            \/ c = 8192 \/ c = 8193 \/ c = 8194 \/ c = 8195 \/ c = 8196
            \/ c = 8197 \/ c = 8198 \/ c = 8199 \/ c = 8200 \/ c = 8201
            \/ c = 8202 \/ c = 8232 \/ c = 8233 \/ c = 8239 \/ c = 8287
            \/ c = 12288)%N as Hc by lia.
    clear H. unfold whitespace_chars.
    repeat (destruct Hc as [->|Hc];
            [refine (bool_decide_unpack _ _); vm_compute; exact I|]).
    subst. refine (bool_decide_unpack _ _). vm_compute. exact I.
  - unfold whitespace_chars. intros H.
    repeat (apply elem_of_cons in H as [->|H]; [reflexivity|]).
    by apply elem_of_nil in H.
Qed.

Lemma lstrip_split s :
  exists pre, s = pre ++ lstrip s
              /\ Forall (fun c => c ∈ whitespace_chars) pre
              /\ forall c, head (lstrip s) = Some c -> c ∉ whitespace_chars.
Proof.
  clear py_str. induction s as [|c s (pre & Hs & Hpre & Hhead)].
  - exists []. repeat split; [constructor|]. by intros c.
  - cbn [lstrip]. destruct (is_space c) eqn:Hc.
    + exists (c :: pre). split; [simpl; by f_equal|].
      split; [|done]. constructor; [by apply is_space_chars|done].
    + exists []. split; [done|]. split; [constructor|].
      intros d [= <-] Hd%is_space_chars. congruence.
Qed.

(** [strip] takes whitespace, and nothing else, from both ends, until
    there is none at either end. *)
Lemma strip_split s :
  exists pre post,
    s = pre ++ strip s ++ post
    /\ Forall (fun c => c ∈ whitespace_chars) pre
    /\ Forall (fun c => c ∈ whitespace_chars) post
    /\ (forall c, head (strip s) = Some c -> c ∉ whitespace_chars)
    /\ (forall c, last (strip s) = Some c -> c ∉ whitespace_chars).
Proof.
  clear py_str. unfold strip.
  destruct (lstrip_split s) as (pre & Hs & Hpre & Hhead).
  destruct (lstrip_split (reverse (lstrip s))) as (erp & Hr & Herp & Hlast).
  set (mid := lstrip (reverse (lstrip s))) in *.
  assert (lstrip s = reverse mid ++ reverse erp) as Hl.
  { by rewrite <- reverse_app, <- Hr, reverse_involutive. }
  exists pre, (reverse erp). split; [by rewrite <- Hl|].
  split; [done|]. split.
  { apply Forall_forall. intros c Hc. rewrite elem_of_reverse in Hc.
    rewrite Forall_forall in Herp. by apply Herp. }
  split.
  - intros c Hc. apply Hhead. rewrite Hl.
    apply head_Some in Hc as [l' ->]. done.
  - intros c Hc. apply Hlast. by rewrite <- last_reverse.
Qed.

(** C4. [get_first_user_message] returns the extracted text of the first
    node, in iteration order, whose message has author role user and a
    non-empty extracted text, with newlines replaced by spaces, trimmed
    and cut to its first 150 characters, and the empty string when there
    is no such node: it returns that on every mapping of the shape of the
    export, and nothing else on any mapping. The preview has at most 150
    characters, and exactly the first 150 of the replaced and trimmed
    text when that text has as many. Character by character: with a
    space for every line feed the text is whitespace, the trimmed text,
    whitespace, the trimmed text neither begins nor ends with
    whitespace, and the preview is its first 150 characters. *)
Theorem preview_first_user_message (mapping : dict) :
  (export_shape mapping = true ->
   get_first_user_message (JObj mapping) = Ok (preview_of mapping))
  /\ (forall s, get_first_user_message (JObj mapping) = Ok s ->
      s = preview_of mapping)
  /\ length (preview_of mapping) <= 150
  /\ (forall t, first_user_text mapping = Some t ->
      150 <= length (strip (replace_newlines t)) ->
      preview_of mapping = take 150 (strip (replace_newlines t))
      /\ length (preview_of mapping) = 150)
  /\ (forall t, first_user_text mapping = Some t ->
      exists pre trimmed post,
        (fun c => if decide (c = 10%N) then 32%N else c) <$> t
        = pre ++ trimmed ++ post
        /\ Forall (fun c => c ∈ whitespace_chars) pre
        /\ Forall (fun c => c ∈ whitespace_chars) post
        /\ (forall c, head trimmed = Some c -> c ∉ whitespace_chars)
        /\ (forall c, last trimmed = Some c -> c ∉ whitespace_chars)
        /\ preview_of mapping = take 150 trimmed)
  /\ (first_user_text mapping = None -> preview_of mapping = []).
Proof.
  assert (Hspec : forall s, get_first_user_message (JObj mapping) = Ok s ->
                            s = preview_of mapping).
  { intros s. unfold get_first_user_message.
    destruct mapping as [|entry rest]; [by intros [= <-]|].
    apply first_user_message_spec. }
  split; [|split; [done|split; [apply preview_of_length|split; [|split]]]].
  - intros Hshape.
    assert (returns (get_first_user_message (JObj mapping))) as [s Hs].
    { unfold get_first_user_message.
      destruct mapping as [|entry rest]; [by eexists|].
      by apply first_user_message_shape. }
    rewrite Hs. f_equal. by apply Hspec.
  - intros t Ht Hlen. unfold preview_of. rewrite Ht. split; [done|].
    rewrite length_take. lia.
  - intros t Ht. unfold preview_of. rewrite Ht.
    destruct (strip_split (replace_newlines t))
      as (pre & post & Hsplit & Hpre & Hpost & Hhead & Hlast).
    by exists pre, (strip (replace_newlines t)), post.
  - intros Ht. unfold preview_of. by rewrite Ht.
Qed.

(** C5. [count_messages] returns the number of nodes whose message has
    author role user or assistant, whether or not the node can be reached
    from a root and whatever its content: it returns that number on every
    mapping of the shape of the export, and no other number on any
    mapping. The number is not negative. *)
Theorem count_messages_spec (mapping : dict) :
  (export_shape mapping = true ->
   count_messages (JObj mapping) = Ok (count_user_assistant mapping))
  /\ (forall n, count_messages (JObj mapping) = Ok n ->
      n = count_user_assistant mapping)
  /\ (0 <= count_user_assistant mapping)%Z.
Proof.
  assert (Hspec : forall n, count_messages (JObj mapping) = Ok n ->
                            n = count_user_assistant mapping).
  { intros n. unfold count_messages.
    destruct mapping as [|entry rest]; [by intros [= <-]|].
    intros H. by apply count_loop_spec in H. }
  split; [|split; [done|apply Nat2Z.is_nonneg]].
  intros Hshape.
  assert (returns (count_messages (JObj mapping))) as [n Hn].
  { unfold count_messages. destruct mapping as [|entry rest]; [by eexists|].
    by apply count_loop_shape. }
  rewrite Hn. f_equal. by apply Hspec.
Qed.

(** *** The title *)


(** *** Code messages *)









(** *** Every node that can be reached is visited *)

Section Reach.

Variable nodes : gmap str json.

Lemma str_items_elem items c : c ∈ str_items items <-> JStr c ∈ items.
Proof.
  unfold str_items. rewrite list_elem_of_omap. split.
  - intros (v & Hv & Hc). destruct v; try done. by injection Hc as ->.
  - intros H. by exists (JStr c).
Qed.

Lemma for_each_children_done (f : json -> tstate -> outcome tstate) :
  (forall v s s', f v s = Ok s' ->
     visited s ⊆ visited s'
     /\ (forall c, v = JStr c -> c ∈ visited s')
     /\ children_done nodes s s') ->
  forall items s s', for_each f items s = Ok s' ->
     visited s ⊆ visited s'
     /\ (forall c, JStr c ∈ items -> c ∈ visited s')
     /\ children_done nodes s s'.
Proof.
  intros Hf items. induction items as [|v items IH]; simpl; intros s s' H.
  - injection H as <-. split; [done|]. split.
    + intros c Hc. by apply not_elem_of_nil in Hc.
    + intros x Hx Hnx. done.
  - apply bind_Ok in H as (s1 & H1 & H2).
    apply Hf in H1 as (Hsub1 & Hv & Hdone1).
    apply IH in H2 as (Hsub2 & Hitems & Hdone2).
    split; [by etrans|]. split.
    + intros c Hc. apply elem_of_cons in Hc as [Hc|Hc]; [|by apply Hitems].
      apply Hsub2. by apply Hv.
    + intros x Hx Hnx y Hy. destruct (decide (x ∈ visited s1)) as [Hx1|Hx1].
      * apply Hsub2. by eapply Hdone1.
      * by eapply Hdone2.
Qed.

Lemma traverse_children_done fuel : forall id st st',
  traverse nodes fuel id st = Ok st' ->
  visited st ⊆ visited st'
  /\ (forall c, id = JStr c -> c ∈ visited st')
  /\ children_done nodes st st'.
Proof.
  induction fuel as [|fuel IH]; simpl; intros id st st' H; [done|].
  assert (Hsame : Ok st = Ok st' ->
    visited st ⊆ visited st' /\ children_done nodes st st').
  { intros [= <-]. split; [done|]. by intros x Hx Hnx. }
  destruct id as [| | | |id| |]; try done;
    try (destruct (Hsame H) as [? ?]; by repeat split).
  destruct (decide (id ∈ visited st)) as [Hin|Hid].
  { injection H as <-. split; [done|]. split; [by intros c [= <-]|].
    by intros x Hx Hnx. }
  assert (Hleaf : child_ids nodes id = [] ->
    Ok (TState ({[id]} ∪ visited st) (messages st)) = Ok st' ->
    visited st ⊆ visited st'
    /\ (forall c, JStr id = JStr c -> c ∈ visited st')
    /\ children_done nodes st st').
  { intros Hnone [= <-]. simpl. split; [set_solver|].
    split; [intros c [= <-]; set_solver|].
    intros x Hx Hnx y Hy. simpl in Hx.
    assert (x = id) as -> by set_solver.
    rewrite Hnone in Hy. by apply not_elem_of_nil in Hy. }
  destruct (nodes !! id) as [node|] eqn:Hnode.
  2:{ apply Hleaf; [|done]. unfold child_ids. by rewrite Hnode. }
  destruct (truthy node) eqn:Htruthy; simpl in H.
  2:{ apply Hleaf; [|done]. unfold child_ids. by rewrite Hnode, Htruthy. }
  apply bind_Ok in H as (st1 & Hv & H).
  apply bind_Ok in H as (children & Hch & H).
  apply bind_Ok in H as (items & Hitems & H).
  assert (Hvis : visited st1 = {[id]} ∪ visited st).
  { rewrite visit_message_frame in Hv.
    destruct (visit_message node (TState ∅ [])); try done. by injection Hv as <-. }
  assert (Hkids : child_ids nodes id = str_items items).
  { unfold child_ids. by rewrite Hnode, Htruthy, Hch; simpl; rewrite Hitems. }
  apply (for_each_children_done _ IH) in H as (Hsub & Hin & Hdone).
  rewrite Hvis in Hsub. split; [set_solver|].
  split; [intros c [= <-]; set_solver|].
  intros x Hx Hnx y Hy. destruct (decide (x = id)) as [->|Hne].
  - rewrite Hkids in Hy. apply Hin. by apply str_items_elem.
  - apply (Hdone x); [done| |done]. rewrite Hvis. set_solver.
Qed.

Lemma traverse_reaches fuel root st id :
  traverse nodes fuel (JStr root) (TState ∅ []) = Ok st ->
  reachable nodes root id -> id ∈ visited st.
Proof.
  intros H Hreach. apply traverse_children_done in H as (_ & Hroot & Hdone).
  induction Hreach as [x|x y z Hxy _ IH]; [by apply Hroot|].
  apply IH. intros c [= <-]. apply (Hdone x); [by apply Hroot| |done].
  simpl. set_solver.
Qed.

End Reach.

Lemma build_index_objects mapping : forall acc r,
  build_index acc mapping = Ok r ->
  forallb (fun kv => is_obj kv.2) mapping = true.
Proof.
  induction mapping as [|[k node] rest IH]; intros acc r H; [done|].
  cbn [build_index] in H. apply bind_Ok in H as (acc' & Hacc & H).
  simpl. rewrite (IH _ _ H), andb_true_r.
  destruct acc as [cm0 n0]. unfold index_node in Hacc.
  apply bind_Ok in Hacc as (p & Hp & _). by destruct node.
Qed.

(** X1: completeness of the thread. Whatever a node that is reached from
    the root along [children] lists adds when visited is in the thread,
    the id of the root not being the empty string. *)
Theorem reachable_messages_shown (mapping : dict) (msgs : list msg)
    (root id : str) (m : msg) :
  build_message_thread (JObj mapping) = Ok msgs ->
  first_parentless mapping = Some root -> root <> [] ->
  reachable (nodes_of mapping) root id ->
  m ∈ node_messages (nodes_of mapping) id ->
  m ∈ msgs.
Proof.
  intros H Hroot Hne Hreach Hm. unfold build_message_thread in H.
  destruct (negb (truthy (JObj mapping))) eqn:Hempty.
  { destruct mapping; done. }
  apply bind_Ok in H as ([cm nodes] & Hidx & H).
  pose proof Hidx as Hnodes. apply build_index_nodes in Hnodes.
  fold (nodes_of mapping) in Hnodes. subst nodes.
  apply bind_Ok in H as (r & Hr & H).
  apply build_index_objects in Hidx.
  rewrite (find_root_objects mapping Hidx), Hroot in Hr. injection Hr as <-.
  destruct root as [|c root]; [done|].
  apply bind_Ok in H as (st & Ht & [= <-]).
  pose proof (traverse_reaches _ _ _ _ id Ht Hreach) as Hvis.
  apply traverse_visits in Ht as (order & _ & _ & Hv & ->). simpl.
  rewrite Hv in Hvis. apply elem_of_union in Hvis as [Hvis|Hvis]; [|done].
  apply elem_of_list_to_set in Hvis.
  apply list_elem_of_In, in_concat. exists (node_messages (nodes_of mapping) id).
  split; apply list_elem_of_In; [by apply list_elem_of_fmap_2|done].
Qed.

(** *** The size of the thread *)

Lemma visited_messages_length (nodes : gmap str json) order :
  NoDup order ->
  length (concat (node_messages nodes <$> order))
  <= size (dom nodes ∩ list_to_set order).
Proof.
  induction 1 as [|x order Hx Hnd IH]; [simpl; lia|].
  change (concat (node_messages nodes <$> x :: order))
    with (node_messages nodes x ++ concat (node_messages nodes <$> order)).
  rewrite list_to_set_cons.
  rewrite length_app. pose proof (node_messages_length nodes x) as Hone.
  destruct (nodes !! x) as [node|] eqn:Hnode.
  - assert (dom nodes ∩ ({[x]} ∪ list_to_set order)
            = {[x]} ∪ dom nodes ∩ list_to_set order) as ->.
    { assert (x ∈ dom nodes) by (apply elem_of_dom; eauto).
      set_solver. }
    assert (x ∉ (list_to_set order : gset str)) by by rewrite elem_of_list_to_set.
    rewrite size_union by set_solver. rewrite size_singleton. lia.
  - unfold node_messages at 1. rewrite Hnode. cbn [length].
    etrans; [exact IH|]. apply subseteq_size. set_solver.
Qed.

(** X2: the thread has at most one entry per node of the mapping. *)
Theorem thread_length_bound (mapping : dict) (msgs : list msg) :
  build_message_thread (JObj mapping) = Ok msgs ->
  length msgs <= length mapping.
Proof.
  intros H. apply build_message_thread_visits in H as (order & st & Hv & ->).
  destruct Hv as (Hnd & _ & _ & ->). simpl.
  etrans; [by apply visited_messages_length|].
  etrans; [|apply nodes_of_size]. rewrite <- size_dom.
  apply subseteq_size. set_solver.
Qed.

(** *** String parts *)

Lemma collect_parts_strings (parts : list str) :
  collect_parts (JStr <$> parts) = JStr <$> parts.
Proof.
  unfold collect_parts. induction parts as [|p parts IH]; [done|].
  cbn [fmap list_fmap omap list_omap part_text]. by f_equal.
Qed.

Lemma all_str_strings (parts : list str) : all_str (JStr <$> parts) = Some parts.
Proof.
  induction parts as [|p parts IH]; [done|].
  cbn [fmap list_fmap all_str]. change (list_fmap str json JStr parts) with (JStr <$> parts).
  by rewrite IH.
Qed.

Lemma join_newline first rest :
  join newline (first :: rest)
  = first ++ concat ((fun part => 10%N :: part) <$> rest).
Proof.
  clear py_str. revert first. induction rest as [|second rest IH];
    intros first.
  - simpl. by rewrite app_nil_r.
  - change (join newline (first :: second :: rest))
      with (first ++ newline ++ join newline (second :: rest)).
    by rewrite IH.
Qed.

(** X3: a text or multimodal_text message whose parts are all strings
    extracts to these strings, unchanged and in order, with a line feed
    before each one but the first. *)
Theorem extract_string_parts (m c : dict) (first : str) (rest : list str) :
  dict_lookup "content" m = Some (JObj c) ->
  is_str (dict_get c "content_type" (JStr "")) "text"
  || is_str (dict_get c "content_type" (JStr "")) "multimodal_text" = true ->
  dict_lookup "parts" c = Some (JArr (JStr <$> first :: rest)) ->
  extract_message_text (JObj m)
  = Ok (Some (first ++ concat ((fun part => 10%N :: part) <$> rest))).
Proof.
  intros Hc Hct Hparts. unfold extract_message_text.
  destruct m as [|entry m']; [done|]. cbn [truthy negb].
  unfold py_contains, dict_has, py_getitem. rewrite Hc.
  rewrite bool_decide_eq_true_2 by eauto. cbn [negb mbind outcome_bind py_get].
  rewrite Hct. unfold dict_get at 1. rewrite Hparts.
  cbn [default from_option id py_iter mbind outcome_bind].
  rewrite collect_parts_strings. unfold py_join. rewrite all_str_strings.
  by rewrite join_newline.
Qed.

(** *** The headings of the document *)

Lemma thread_roles mapping msgs :
  build_message_thread mapping = Ok msgs ->
  Forall (fun m => role m ∈ [pystr "user"; pystr "assistant"; pystr "tool"])
    msgs.
Proof.
  intros H. destruct mapping as [| | | | | |items];
    try (unfold build_message_thread in H; simpl in H;
         repeat case_match; simplify_eq; by constructor).
  apply build_message_thread_visits in H as (order & st & Hv & ->).
  destruct Hv as (_ & _ & _ & ->). simpl. apply Forall_forall. intros m Hm.
  apply list_elem_of_In, in_concat in Hm as (l & Hl & Hml).
  apply list_elem_of_In, list_elem_of_fmap in Hl as (id & -> & _).
  apply list_elem_of_In, node_messages_shown in Hml as (node & _ & Hshown).
  by destruct Hshown as (message & _ & _ & _ & _ & Hrole & _).
Qed.

Lemma role_heading_shown (title1 title2 : str -> str) r :
  r ∈ [pystr "user"; pystr "assistant"; pystr "tool"] ->
  role_heading title1 r = role_heading title2 r.
Proof.
  intros H. unfold role_heading.
  repeat (apply elem_of_cons in H as [->|H]); try done.
  by apply not_elem_of_nil in H.
Qed.

(** X4: the headings of the document are those of user, assistant and
    tool: the fallback through [str.title] is never used, the document
    is the same whatever [str.title] does. *)
Theorem markdown_without_title_case (datetime : Type)
    (fromtimestamp : json -> option datetime)
    (strftime_minute : datetime -> str) (title1 title2 : str -> str)
    (conv : json) :
  conversation_to_markdown datetime fromtimestamp strftime_minute title1 conv
  = conversation_to_markdown datetime fromtimestamp strftime_minute title2 conv.
Proof.
  assert (Hlines : forall thread,
    Forall (fun m => role m ∈ [pystr "user"; pystr "assistant"; pystr "tool"])
      thread ->
    concat (message_lines title1 <$> thread)
    = concat (message_lines title2 <$> thread)).
  { induction 1 as [|m thread Hm _ IH]; [done|].
    cbn [fmap list_fmap concat]. f_equal; [|exact IH].
    unfold message_lines. f_equal. by apply role_heading_shown. }
  unfold conversation_to_markdown, conversation_lines.
  destruct (conversation_title conv) as [title| |]; try done.
  destruct (py_get conv "create_time" JNull) as [created| |]; try done.
  destruct (py_get conv "update_time" JNull) as [updated| |]; try done.
  destruct (py_get conv "mapping" (JObj [])) as [mapping| |]; try done.
  cbn [mbind outcome_bind].
  destruct (build_message_thread mapping) as [thread| |] eqn:Ht; try done.
  cbn [mbind outcome_bind]. by rewrite (Hlines thread (thread_roles _ _ Ht)).
Qed.

(** *** The count and the thread *)

Lemma message_role_default d message r :
  message_role (JStr d) message = JStr r -> r <> d ->
  message_role JNull message = JStr r.
Proof.
  unfold message_role. destruct (field "author" message) as [author|];
    [|by intros [= <-]].
  destruct (field "role" author) as [v|]; simpl; [done|by intros [= <-]].
Qed.

Lemma shown_as_counted node m :
  shown_as node m ->
  role m = pystr "user" \/ role m = pystr "assistant" ->
  user_or_assistant node = true.
Proof.
  intros (message & Hfield & _ & _ & Hrole & _ & _) Hr.
  unfold user_or_assistant. rewrite Hfield.
  rewrite (message_role_default "unknown" message (role m) Hrole).
  - destruct Hr as [-> | ->]; by vm_compute.
  - destruct Hr as [-> | ->]; by vm_compute.
Qed.

Lemma count_messages_Ok mapping n :
  count_messages (JObj mapping) = Ok n -> n = count_user_assistant mapping.
Proof.
  unfold count_messages. destruct mapping as [|entry rest]; [by intros [= <-]|].
  intros H. by apply count_loop_spec in H.
Qed.

Lemma user_assistant_entries_node (nodes : gmap str json) id :
  length (user_assistant_entries (node_messages nodes id))
  <= length (option_list (counted_node nodes id)).
Proof.
  pose proof (node_messages_length nodes id) as Hlen.
  destruct (node_messages nodes id) as [|m [|m' l]] eqn:Hnm; simpl in Hlen;
    [simpl; lia| |lia].
  assert (Hm : m ∈ node_messages nodes id) by (rewrite Hnm; apply list_elem_of_here).
  apply node_messages_shown in Hm as (node & Hnode & Hshown).
  unfold user_assistant_entries, counted_node. cbn [List.filter]. rewrite Hnode.
  destruct (bool_decide (role m = pystr "user")
            || bool_decide (role m = pystr "assistant")) eqn:Hr; [|simpl; lia].
  rewrite (shown_as_counted node m Hshown); [done|].
  apply orb_prop in Hr as [Hr|Hr]; apply bool_decide_eq_true in Hr; auto.
Qed.

Lemma counted_nodes_NoDup (nodes : gmap str json) order :
  NoDup order -> NoDup (omap (counted_node nodes) order).
Proof.
  induction 1 as [|x order Hx Hnd IH]; [constructor|].
  cbn [omap list_omap]. change (list_omap _ _ (counted_node nodes) order)
    with (omap (counted_node nodes) order).
  destruct (counted_node nodes x) as [p|] eqn:Hp; [|done].
  constructor; [|done]. intros Hin.
  apply list_elem_of_omap in Hin as (y & Hy & Hpy). apply Hx.
  unfold counted_node in Hp, Hpy.
  destruct (nodes !! x) as [nx|]; [|done]. destruct (user_or_assistant nx); [|done].
  destruct (nodes !! y) as [ny|]; [|done]. destruct (user_or_assistant ny); [|done].
  by simplify_eq.
Qed.

(** X5: the message count is at least the number of user and assistant
    entries of the thread. *)
Theorem count_bounds_thread (mapping : dict) (msgs : list msg) (n : Z) :
  build_message_thread (JObj mapping) = Ok msgs ->
  count_messages (JObj mapping) = Ok n ->
  (Z.of_nat (length (user_assistant_entries msgs)) <= n)%Z.
Proof.
  intros H Hn. apply count_messages_Ok in Hn as ->.
  apply build_message_thread_visits in H as (order & st & Hv & ->).
  destruct Hv as (Hnd & _ & _ & ->). simpl. unfold count_user_assistant.
  apply inj_le.
  etrans; [|apply submseteq_length,
             (NoDup_submseteq _ _ (counted_nodes_NoDup (nodes_of mapping) order Hnd))].
  - clear Hnd. induction order as [|id order IH]; [done|].
    cbn [fmap list_fmap concat omap list_omap].
    unfold user_assistant_entries in *. rewrite List.filter_app, length_app.
    pose proof (user_assistant_entries_node (nodes_of mapping) id) as Hid.
    unfold user_assistant_entries in Hid.
    destruct (counted_node (nodes_of mapping) id); simpl in *; lia.
  - intros [id node] Hin. apply list_elem_of_omap in Hin as (y & _ & Hy).
    unfold counted_node in Hy.
    destruct (nodes_of mapping !! y) as [ny|] eqn:Hny; [|done].
    destruct (user_or_assistant ny) eqn:Hua; [|done]. injection Hy as -> ->.
    apply list_elem_of_In, filter_In. split; [|done].
    by apply list_elem_of_In, nodes_of_lookup.
Qed.

(** *** The concrete inputs, run *)

Example ragged_thread :
  build_message_thread (JObj ragged)
  = Ok [Msg "user" (pystr "[Image]" ++ newline ++ pystr "hi") JNull].
Proof. vm_compute. reflexivity. Qed.

Example diamond_thread :
  build_message_thread (JObj diamond)
  = Ok [Msg "user" "one" JNull; Msg "user" "three" JNull;
        Msg "assistant" "two" JNull].
Proof. vm_compute. reflexivity. Qed.

Example code_only_thread :
  build_message_thread (JObj code_only)
  = Ok [Msg "assistant" (fence ++ newline ++ newline ++ fence) JNull].
Proof. vm_compute. reflexivity. Qed.

Example orphans_thread_and_count :
  build_message_thread (JObj orphans) = Ok []
  /\ count_messages (JObj orphans) = Ok 2%Z.
Proof. vm_compute. auto. Qed.

Example long_message_preview :
  get_first_user_message (JObj long_message)
  = Ok (replicate 100 97%N ++ [32%N] ++ replicate 49 98%N).
Proof. vm_compute. reflexivity. Qed.

End Program.

Arguments IndexEntry {datetime}.
Arguments entry_title {datetime}.
Arguments entry_date {datetime}.
Arguments entry_filename {datetime}.
Arguments entry_preview {datetime}.
Arguments entry_message_count {datetime}.
Arguments entry_month {datetime}.
Arguments ExportState {datetime}.
Arguments filenames_used {datetime}.
Arguments files {datetime}.
Arguments conv_data {datetime}.

(** ** File names and escaping *)

(** *** File names *)

Lemma lstrip_app_one l c :
  lstrip (l ++ [c]) =
  match lstrip l with
  | [] => if is_space c then [] else [c]
  | r => r ++ [c]
  end.
Proof.
  induction l as [|d l IH]; simpl; [done|].
  destruct (is_space d); [done|]. done.
Qed.

Lemma strip_rstrip s : strip s = rstrip (lstrip s).
Proof.
  unfold strip. generalize (lstrip s) as v. clear s.
  induction v as [|c v IH]; [done|].
  rewrite reverse_cons, lstrip_app_one. simpl. rewrite <- IH.
  destruct (lstrip (reverse v)) as [|d r] eqn:Hr.
  - rewrite reverse_nil. by destruct (is_space c).
  - change (d :: r ++ [c]) with ((d :: r) ++ [c]). rewrite reverse_app.
    change (reverse [c]) with [c]. simpl.
    destruct (reverse (d :: r)) eqn:E; [|done].
    apply (f_equal length) in E. by rewrite length_reverse in E.
Qed.

Lemma lstrip_suffix s : exists l, s = l ++ lstrip s.
Proof.
  induction s as [|c s [l IH]]; simpl; [by exists []|].
  destruct (is_space c); [|by exists []].
  exists (c :: l). simpl. congruence.
Qed.

Lemma rstrip_prefix s : exists l, s = rstrip s ++ l.
Proof.
  induction s as [|c s [l IH]]; simpl; [by exists []|].
  destruct (rstrip s) as [|d r] eqn:Hr.
  - destruct (is_space c); [by exists (c :: s)|]. exists l. simpl in *. congruence.
  - exists l. simpl in *. congruence.
Qed.

Lemma strip_infix s : exists l1 l2, s = l1 ++ strip s ++ l2.
Proof.
  rewrite strip_rstrip. destruct (lstrip_suffix s) as [l1 H1].
  destruct (rstrip_prefix (lstrip s)) as [l2 H2].
  exists l1, l2. by rewrite <- H2.
Qed.

Lemma cut_last_space_Some s p :
  cut_last_space s = Some p -> exists r, s = p ++ space :: r.
Proof.
  revert p. induction s as [|c s IH]; simpl; intros p H; [done|].
  destruct (cut_last_space s) as [q|].
  - injection H as <-. destruct (IH q eq_refl) as [r ->]. by exists r.
  - destruct (decide (c = space)) as [->|]; [|done]. injection H as <-.
    by exists s.
Qed.

Lemma rsplit_head_prefix s : exists r, s = rsplit_head s ++ r.
Proof.
  unfold rsplit_head. destruct (cut_last_space s) as [p|] eqn:H; simpl.
  - apply cut_last_space_Some in H as [r ->]. eauto.
  - exists []. by rewrite app_nil_r.
Qed.

Lemma collapse_from_elem b s c :
  c ∈ collapse_from b s -> c = space \/ c ∈ s.
Proof.
  revert b. induction s as [|d s IH]; simpl; intros b H.
  - by apply not_elem_of_nil in H.
  - destruct (is_space d), b;
      repeat match goal with
      | H : _ ∈ _ :: _ |- _ => apply elem_of_cons in H as [->|H]
      | H : _ ∈ collapse_from _ _ |- _ => apply IH in H as [->|H]
      end; auto using list_elem_of_here, list_elem_of_further.
Qed.

Lemma remove_unsafe_elem s c : c ∈ remove_unsafe s -> unsafe_char c = false.
Proof.
  unfold remove_unsafe. intros H. apply list_elem_of_In, filter_In in H as [_ H].
  by apply negb_true_iff.
Qed.

(** The characters of the name before "Untitled" replaces an empty one. *)
Lemma cleaned_elem t n c :
  c ∈ (if decide (n < length (strip (collapse_spaces (remove_unsafe t))))
       then rsplit_head (take n (strip (collapse_spaces (remove_unsafe t))))
       else strip (collapse_spaces (remove_unsafe t))) ->
  unsafe_char c = false.
Proof.
  intros H.
  assert (Hs : c ∈ strip (collapse_spaces (remove_unsafe t))).
  { destruct (decide _); [|done].
    destruct (rsplit_head_prefix
                (take n (strip (collapse_spaces (remove_unsafe t))))) as [r Hr].
    apply (sublist_subseteq _ _ (sublist_take _ n)). rewrite Hr.
    apply elem_of_app. by left. }
  destruct (strip_infix (collapse_spaces (remove_unsafe t))) as (l1 & l2 & Hi).
  assert (Hc : c ∈ collapse_spaces (remove_unsafe t)).
  { rewrite Hi. rewrite !elem_of_app. auto. }
  apply collapse_from_elem in Hc as [->|Hc]; [done|].
  by apply remove_unsafe_elem in Hc.
Qed.

Example sanitize_examples :
  sanitize_filename (JStr "  What is: a <b>?  Really  long title that goes on and on and on forever  ") 50
  = Ok (pystr "What is a b Really long title that goes on and on")
  /\ sanitize_filename (JStr "ab cd") 4 = Ok (pystr "ab")
  /\ sanitize_filename (JStr "abcdef") 4 = Ok (pystr "abcd")
  /\ sanitize_filename JNull 4 = Ok (pystr "Unti").
Proof. vm_compute. auto. Qed.

Lemma sanitized_safe title n s :
  sanitize_filename title n = Ok s ->
  s <> [] /\ Forall (fun c => c ∉ unsafe_chars) s.
Proof.
  unfold sanitize_filename.
  set (t0 := if truthy title then title else JStr "Untitled").
  destruct t0 as [| | | |t| |]; try done. intros [= <-].
  pose proof (cleaned_elem t n) as Hel.
  destruct (if decide (n < _) then _ else _) as [|c safe].
  - split; [done|]. apply Forall_forall. intros c Hc.
    apply (bool_decide_eq_false (c ∈ unsafe_chars)).
    revert c Hc. apply Forall_forall. by vm_compute; repeat constructor.
  - split; [done|]. apply Forall_forall. intros d Hd.
    apply (bool_decide_eq_false (d ∈ unsafe_chars)). by apply Hel.
Qed.

(** X6: a sanitized name is never empty and has none of the removed
    characters. *)
Theorem sanitize_filename_safe title n s :
  sanitize_filename title n = Ok s ->
  s <> [] /\ Forall (fun c => c ∉ unsafe_chars) s.
Proof. apply sanitized_safe. Qed.

Lemma collapse_from_spaced b s :
  spaced (collapse_from b s) = true
  /\ (b = true -> starts_clean (collapse_from b s) = true).
Proof.
  revert b. induction s as [|c s IH]; intros b; simpl; [done|].
  destruct (is_space c) eqn:Hc.
  - destruct (IH true) as [Hs Hh]. specialize (Hh eq_refl).
    destruct b; [done|]. split; [|done].
    change (spaced (space :: collapse_from true s)) with
      ((negb (is_space space) || bool_decide (space = space) &&
        match collapse_from true s with
        | [] => true
        | d :: _ => negb (is_space d)
        end) && spaced (collapse_from true s)).
    rewrite Hs, andb_true_r.
    destruct (collapse_from true s); simpl in *; [done|].
    by rewrite Hh.
  - destruct (IH false) as [Hs _]. simpl. by rewrite Hc, Hs.
Qed.

Lemma spaced_app_r l s : spaced (l ++ s) = true -> spaced s = true.
Proof.
  induction l as [|c l IH]; simpl; [done|].
  intros H. apply andb_prop in H as [_ H]. by apply IH.
Qed.

Lemma spaced_app_l s l : spaced (s ++ l) = true -> spaced s = true.
Proof.
  induction s as [|c s IH]; simpl; [done|].
  intros H. apply andb_prop in H as [Hc H]. rewrite (IH H), andb_true_r.
  apply orb_prop in Hc as [->|Hc]; [done|].
  apply andb_prop in Hc as [-> Hn]. rewrite orb_true_iff. right.
  destruct s; simpl in *; done.
Qed.

Lemma lstrip_clean s : starts_clean (lstrip s) = true.
Proof.
  induction s as [|c s IH]; simpl; [done|].
  destruct (is_space c) eqn:Hc; [done|]. simpl. by rewrite Hc.
Qed.

Lemma rstrip_head v d r : rstrip v = d :: r -> exists v', v = d :: v'.
Proof.
  destruct v as [|c v]; simpl; [done|].
  destruct (rstrip v); [destruct (is_space c)|]; intros [= <- <-]; eauto.
Qed.

Lemma rstrip_clean v : starts_clean v = true -> starts_clean (rstrip v) = true.
Proof.
  intros H. destruct (rstrip v) as [|d r] eqn:Hr; [done|].
  apply rstrip_head in Hr as [v' ->]. done.
Qed.

Lemma rstrip_single v : spaced v = true -> single_spaced (rstrip v) = true.
Proof.
  induction v as [|c v IH]; simpl; [done|].
  intros H. apply andb_prop in H as [Hc Hv]. specialize (IH Hv).
  destruct (rstrip v) as [|d r] eqn:Hr.
  - destruct (is_space c) eqn:Hs; [done|]. simpl. by rewrite Hs.
  - change (single_spaced (c :: d :: r)) with
      ((negb (is_space c) || bool_decide (c = space) && negb (is_space d))
       && single_spaced (d :: r)).
    rewrite IH, andb_true_r. apply rstrip_head in Hr as [v' ->]. done.
Qed.

Lemma cut_single q r : spaced (q ++ space :: r) = true -> single_spaced q = true.
Proof.
  induction q as [|c q IH]; simpl; [done|].
  intros H. apply andb_prop in H as [Hc H]. rewrite (IH H), andb_true_r.
  apply orb_prop in Hc as [->|Hc]; [done|].
  apply andb_prop in Hc as [-> Hn]. rewrite orb_true_iff. right.
  destruct q; simpl in *; done.
Qed.

Lemma cut_last_space_None s : cut_last_space s = None -> space ∉ s.
Proof.
  induction s as [|c s IH]; simpl; [intros _; apply not_elem_of_nil|].
  destruct (cut_last_space s); [done|].
  destruct (decide (c = space)); [done|]. intros _.
  apply not_elem_of_cons. auto.
Qed.

Lemma spaced_no_space s :
  spaced s = true -> space ∉ s -> single_spaced s = true.
Proof.
  induction s as [|c s IH]; simpl; [done|].
  intros H Hn. apply andb_prop in H as [Hc H].
  apply not_elem_of_cons in Hn as [Hne Hn]. rewrite (IH H Hn), andb_true_r.
  apply orb_prop in Hc as [->|Hc]; [done|].
  apply andb_prop in Hc as [Hc _]. by apply bool_decide_eq_true in Hc.
Qed.

Lemma rsplit_head_single s :
  spaced s = true -> single_spaced (rsplit_head s) = true.
Proof.
  intros H. unfold rsplit_head. destruct (cut_last_space s) as [p|] eqn:Hp; simpl.
  - apply cut_last_space_Some in Hp as [r ->]. by eapply cut_single.
  - apply spaced_no_space; [done|]. by apply cut_last_space_None.
Qed.

Lemma starts_clean_app s l :
  starts_clean (s ++ l) = true -> starts_clean s = true.
Proof. by destruct s. Qed.

Lemma single_spaced_spaced s : single_spaced s = true -> spaced s = true.
Proof.
  induction s as [|c s IH]; simpl; [done|].
  intros H. apply andb_prop in H as [Hc H]. rewrite (IH H), andb_true_r.
  apply orb_prop in Hc as [->|Hc]; [done|].
  apply andb_prop in Hc as [-> Hn]. rewrite orb_true_iff. right.
  destruct s; simpl in *; done.
Qed.

(** The cleaned title, before and after it is cut. *)
Lemma cleaned_tidy t : tidy (strip (collapse_spaces (remove_unsafe t))) = true.
Proof.
  unfold tidy. rewrite strip_rstrip.
  destruct (collapse_from_spaced false (remove_unsafe t)) as [Hs _].
  fold (collapse_spaces (remove_unsafe t)) in Hs.
  destruct (lstrip_suffix (collapse_spaces (remove_unsafe t))) as [l Hl].
  rewrite Hl in Hs. apply spaced_app_r in Hs.
  rewrite (rstrip_single _ Hs). simpl. apply rstrip_clean, lstrip_clean.
Qed.

Lemma cut_tidy s n : tidy s = true -> tidy (rsplit_head (take n s)) = true.
Proof.
  unfold tidy. intros H. apply andb_prop in H as [Hs Hc].
  apply single_spaced_spaced in Hs.
  rewrite <- (take_drop n s) in Hs, Hc. apply spaced_app_l in Hs.
  apply starts_clean_app in Hc.
  rewrite (rsplit_head_single _ Hs). simpl.
  destruct (rsplit_head_prefix (take n s)) as [r Hr]. rewrite Hr in Hc.
  by apply starts_clean_app in Hc.
Qed.

Lemma sanitized_tidy title n s :
  sanitize_filename title n = Ok s -> tidy s = true.
Proof.
  unfold sanitize_filename.
  set (t0 := if truthy title then title else JStr "Untitled").
  destruct t0 as [| | | |t| |]; try done. intros [= <-].
  pose proof (cleaned_tidy t) as Ht.
  set (safe := strip (collapse_spaces (remove_unsafe t))) in *.
  assert (Hcut : tidy (if decide (n < length safe)
                       then rsplit_head (take n safe) else safe) = true).
  { destruct (decide _); [by apply cut_tidy|done]. }
  destruct (if decide (n < length safe) then _ else _); [by vm_compute|done].
Qed.

(** X7: a sanitized name has no whitespace other than single spaces
    between other characters. *)
Theorem sanitize_filename_tidy title n s :
  sanitize_filename title n = Ok s -> tidy s = true.
Proof. apply sanitized_tidy. Qed.

Lemma sanitized_length title n s :
  sanitize_filename title n = Ok s -> length s <= Nat.max n 8.
Proof.
  unfold sanitize_filename.
  set (t0 := if truthy title then title else JStr "Untitled").
  destruct t0 as [| | | |t| |]; try done. intros [= <-].
  set (safe := strip (collapse_spaces (remove_unsafe t))).
  assert (Hlen : length (if decide (n < length safe)
                         then rsplit_head (take n safe) else safe) <= n).
  { destruct (decide _); [|lia].
    destruct (rsplit_head_prefix (take n safe)) as [r Hr].
    apply (f_equal length) in Hr. rewrite length_app, length_take in Hr. lia. }
  destruct (if decide (n < length safe) then _ else _); simpl in *; lia.
Qed.

(** X8: for a [max_length] that is not negative, the length of a
    sanitized name is at most [max_length], or 8 when that is smaller. *)
Theorem sanitize_filename_length title (max_length : Z) s :
  (0 <= max_length)%Z ->
  sanitize_filename title (Z.to_nat max_length) = Ok s ->
  (Z.of_nat (length s) <= Z.max max_length 8)%Z.
Proof. intros Hpos H. apply sanitized_length in H. lia. Qed.

Lemma remove_unsafe_id t :
  Forall (fun c => c ∉ unsafe_chars) t -> remove_unsafe t = t.
Proof.
  unfold remove_unsafe. induction 1 as [|c t Hc _ IH]; [done|].
  cbn [List.filter]. unfold unsafe_char at 1.
  rewrite bool_decide_eq_false_2 by done. cbn [negb]. by rewrite IH.
Qed.

Lemma collapse_from_id b t :
  spaced t = true -> (b = true -> starts_clean t = true) ->
  collapse_from b t = t.
Proof.
  revert b. induction t as [|c t IH]; intros b; simpl; [done|].
  intros H Hb. apply andb_prop in H as [Hc Ht].
  destruct (is_space c) eqn:Hs.
  - destruct b; [by specialize (Hb eq_refl)|]. simpl in Hc.
    apply andb_prop in Hc as [Hc Hn]. apply bool_decide_eq_true in Hc as ->.
    f_equal. apply IH; [done|]. intros _. by destruct t.
  - f_equal. by apply IH.
Qed.

Lemma lstrip_id t : starts_clean t = true -> lstrip t = t.
Proof. destruct t as [|c t]; simpl; [done|]. by destruct (is_space c). Qed.

Lemma rstrip_id t : single_spaced t = true -> rstrip t = t.
Proof.
  induction t as [|c t IH]; simpl; [done|].
  intros H. apply andb_prop in H as [Hc Ht]. rewrite (IH Ht).
  destruct t as [|d t]; [|done].
  destruct (is_space c); [|done]. simpl in Hc. by rewrite andb_false_r in Hc.
Qed.

Lemma cleaned_id t :
  Forall (fun c => c ∉ unsafe_chars) t -> tidy t = true ->
  strip (collapse_spaces (remove_unsafe t)) = t.
Proof.
  intros Hsafe Ht. apply andb_prop in Ht as [Hs Hc].
  rewrite remove_unsafe_id by done. unfold collapse_spaces.
  rewrite collapse_from_id by (done || by apply single_spaced_spaced).
  by rewrite strip_rstrip, lstrip_id, rstrip_id.
Qed.

Lemma sanitized_fixed t n :
  t <> [] -> Forall (fun c => c ∉ unsafe_chars) t -> tidy t = true ->
  length t <= n ->
  sanitize_filename (JStr t) n = Ok t.
Proof.
  intros Hne Hsafe Ht Hlen. unfold sanitize_filename.
  assert (truthy (JStr t) = true) as -> by by destruct t.
  rewrite cleaned_id by done.
  destruct (decide (n < length t)); [lia|]. by destruct t.
Qed.

(** X9: a name that is already clean and short enough is returned as it
    is. *)
Theorem sanitize_filename_fixed t n :
  t <> [] -> Forall (fun c => c ∉ unsafe_chars) t -> tidy t = true ->
  length t <= n ->
  sanitize_filename (JStr t) n = Ok t.
Proof. apply sanitized_fixed. Qed.

(** X10: sanitizing twice changes nothing more, for a [max_length] of 8 or
    more. *)
Theorem sanitize_filename_idempotent title n s :
  8 <= n -> sanitize_filename title n = Ok s ->
  sanitize_filename (JStr s) n = Ok s.
Proof.
  intros Hn H.
  destruct (sanitized_safe title n s H) as [Hne Hsafe].
  apply sanitized_fixed; try done.
  - by eapply sanitized_tidy.
  - apply sanitized_length in H. lia.
Qed.

Lemma lstrip_all_space u :
  Forall (fun c => is_space c = true) u -> lstrip u = [].
Proof. induction 1 as [|c u Hc _ IH]; simpl; [done|]. by rewrite Hc. Qed.

(** X11: without a usable character the name is "Untitled", and a title
    that is neither empty nor a string is a type error. *)
Theorem sanitize_filename_untitled title n :
  8 <= n ->
  (truthy title = false -> sanitize_filename title n = Ok (pystr "Untitled"))
  /\ (forall t, title = JStr t ->
      Forall (fun c => c ∈ unsafe_chars \/ is_space c = true) t ->
      sanitize_filename title n = Ok (pystr "Untitled"))
  /\ (truthy title = true -> (forall t, title <> JStr t) ->
      sanitize_filename title n = Raise TypeError).
Proof.
  intros Hn.
  assert (Hdefault : sanitize_filename (JStr "Untitled") n = Ok (pystr "Untitled")).
  { apply sanitized_fixed; [done|..|done|exact Hn].
    apply Forall_forall. intros c Hc.
    apply (bool_decide_eq_false (c ∈ unsafe_chars)).
    revert c Hc. apply Forall_forall. by vm_compute; repeat constructor. }
  split; [|split].
  - intros Hf. unfold sanitize_filename in *. by rewrite Hf.
  - intros t -> Hblank. destruct t as [|c t]; [done|].
    unfold sanitize_filename. cbn [truthy].
    assert (strip (collapse_spaces (remove_unsafe (c :: t))) = []) as ->.
    { rewrite strip_rstrip, lstrip_all_space; [done|].
      apply Forall_forall. intros d Hd.
      apply collapse_from_elem in Hd as [->|Hd]; [done|].
      pose proof (remove_unsafe_elem _ _ Hd) as Hu.
      apply list_elem_of_In, filter_In in Hd as [Hd _].
      apply list_elem_of_In in Hd. rewrite Forall_forall in Hblank.
      destruct (Hblank d Hd) as [Hin|Hsp]; [|done].
      unfold unsafe_char in Hu. by apply bool_decide_eq_false in Hu. }
    simpl. by destruct (decide (n < 0)).
  - intros Ht Hns. unfold sanitize_filename. rewrite Ht.
    destruct title; try done. by destruct (Hns s).
Qed.

Example unique_filename_examples :
  unique_filename ∅ "20240101" "Trip" = Ok (pystr "20240101_Trip.md")
  /\ unique_filename {[pystr "20240101_Trip.md"]} "20240101" "Trip"
     = Ok (pystr "20240101_Trip_1.md")
  /\ unique_filename {[pystr "20240101_Trip.md"; pystr "20240101_Trip_1.md"]}
       "20240101" "Trip"
     = Ok (pystr "20240101_Trip_2.md").
Proof. vm_compute. auto. Qed.

Lemma pystr_inj : Inj (=) (=) pystr.
Proof.
  intros s1 s2. unfold pystr. revert s2.
  induction s1 as [|a s1 IH]; intros [|b s2]; simpl; intros H; try done.
  injection H as Hab H. apply (f_equal ascii_of_N) in Hab.
  rewrite !ascii_N_embedding in Hab. subst b. f_equal. by apply IH.
Qed.

Lemma numbered_name_inj stem : Inj (=) (=) (numbered_name stem).
Proof.
  intros j k H. unfold numbered_name in H.
  apply app_inv_head, app_inv_head, app_inv_tail in H.
  by apply pystr_inj, (inj pretty) in H.
Qed.

(** Among the first [size used + 1] numbered names one is free. *)
Lemma numbered_name_free (used : gset str) stem :
  exists j, j <= size used /\ (numbered_name stem (N.of_nat (S j)) ∉ used).
Proof.
  destruct (decide (Forall (fun j => numbered_name stem (N.of_nat (S j)) ∈ used)
                      (seq 0 (S (size used))))) as [Hall|Hex].
  - exfalso.
    set (names := (fun j => numbered_name stem (N.of_nat (S j)))
                  <$> seq 0 (S (size used))).
    assert (Hnd : NoDup names).
    { apply NoDup_fmap_2; [|apply NoDup_seq].
      intros j k H. apply numbered_name_inj in H. lia. }
    assert (Hsub : list_to_set names ⊆ used).
    { intros x Hx. apply elem_of_list_to_set, list_elem_of_fmap in Hx
        as (j & -> & Hj). rewrite Forall_forall in Hall. by apply Hall. }
    apply subseteq_size in Hsub. rewrite size_list_to_set in Hsub by done.
    unfold names in Hsub. rewrite length_fmap, length_seq in Hsub. lia.
  - apply not_Forall_Exists in Hex; [|apply _].
    apply Exists_exists in Hex as (j & Hj & Hfree).
    apply elem_of_seq in Hj. exists j. split; [lia|done].
Qed.

Lemma free_name_returns used stem : forall j fuel k filename,
  numbered_name stem (k + N.of_nat j) ∉ used -> S j < fuel ->
  exists r, free_name fuel used stem filename k = Ok r.
Proof.
  induction j as [|j IH]; intros fuel k filename Hfree Hfuel.
  - destruct fuel as [|[|fuel]]; try lia. simpl.
    destruct (decide (filename ∈ used)); [|eauto].
    rewrite N.add_0_r in Hfree. rewrite decide_False by done. eauto.
  - destruct fuel as [|fuel]; [lia|]. simpl.
    destruct (decide (filename ∈ used)); [|eauto].
    apply IH; [|lia]. by replace (k + 1 + N.of_nat j)%N with (k + N.of_nat (S j))%N by lia.
Qed.

Lemma free_name_fresh used stem : forall fuel k filename r,
  free_name fuel used stem filename k = Ok r ->
  (r ∉ used) /\ (r = filename \/ exists j, r = numbered_name stem j).
Proof.
  induction fuel as [|fuel IH]; intros k filename r; simpl; [done|].
  destruct (decide (filename ∈ used)).
  - intros H. apply IH in H as [Hr [->|[j ->]]]; eauto.
  - intros [= <-]. auto.
Qed.

Lemma unused_filename (used : gset str) date_prefix safe_title :
  exists filename,
    unique_filename used date_prefix safe_title = Ok filename
    /\ (filename ∉ used)
    /\ (filename = date_prefix ++ pystr "_" ++ safe_title ++ pystr ".md"
        \/ exists counter : N,
             filename = date_prefix ++ pystr "_" ++ safe_title ++ pystr "_"
                        ++ pystr (pretty counter) ++ pystr ".md").
Proof.
  unfold unique_filename.
  set (stem := date_prefix ++ pystr "_" ++ safe_title).
  destruct (numbered_name_free used stem) as (j & Hj & Hfree).
  destruct (free_name_returns used stem j (S (S (size used))) 1
              (stem ++ pystr ".md")) as [r Hr].
  { by replace (1 + N.of_nat j)%N with (N.of_nat (S j)) by lia. }
  { lia. }
  exists r. split; [done|]. apply free_name_fresh in Hr as [Hr Hform].
  split; [done|]. unfold stem, numbered_name in Hform.
  destruct Hform as [->|[c ->]].
  - left. by rewrite <- !app_assoc.
  - right. exists c. by rewrite <- !app_assoc.
Qed.

(** X12: the loop always ends, with a name that is not taken: the plain
    name, or a numbered one. *)
Theorem unique_filename_fresh (used : gset str) date_prefix safe_title :
  exists filename,
    unique_filename used date_prefix safe_title = Ok filename
    /\ (filename ∉ used)
    /\ (filename = date_prefix ++ pystr "_" ++ safe_title ++ pystr ".md"
        \/ exists counter : N,
             filename = date_prefix ++ pystr "_" ++ safe_title ++ pystr "_"
                        ++ pystr (pretty counter) ++ pystr ".md").
Proof. apply unused_filename. Qed.

(** *** Escaping *)

Example escape_examples :
  escape_html (JStr "a<b> & 'c'") = Ok (pystr "a&lt;b&gt; &amp; &#x27;c&#x27;")
  /\ escape_html JNull = Ok []
  /\ escape_html (JInt 5) = Raise AttributeError
  /\ escape_js_string (JStr "a\b<c>") = Ok (pystr "a\\b&lt;c&gt;").
Proof. vm_compute. auto. Qed.

Lemma replace_char_absent x old new s :
  x ∉ new -> x = old \/ x ∉ s -> x ∉ replace_char old new s.
Proof.
  intros Hnew Hs Hx. unfold replace_char in Hx.
  apply list_elem_of_bind in Hx as (c & Hx & Hc).
  destruct (decide (c = old)) as [->|Hne]; [done|].
  apply list_elem_of_singleton in Hx as ->. by destruct Hs.
Qed.

Ltac absent_after_replace :=
  lazymatch goal with |- ?x ∈ ?l -> False => change (x ∉ l) end;
  repeat (apply replace_char_absent;
          [refine (bool_decide_unpack _ _); vm_compute; exact I
          |first [left; reflexivity|right]]).

(** X13: the escaped text has no angle bracket and no quote. *)
Theorem escape_html_safe s r :
  escape_html s = Ok r ->
  Forall (fun c => c ∉ [less_than; greater_than; double_quote; single_quote]) r.
Proof.
  unfold escape_html. destruct (truthy s); [|by intros [= <-]].
  destruct s as [| | | |t| |]; try done. intros [= <-].
  apply Forall_forall. intros c Hc Hbad. unfold html_escape in Hc.
  revert Hc. repeat (apply elem_of_cons in Hbad as [->|Hbad]);
    [absent_after_replace..|by apply not_elem_of_nil in Hbad].
Qed.

(** X14: the escaped attribute value has no double quote, no angle bracket
    and no line break. *)
Theorem escape_js_string_safe s r :
  escape_js_string s = Ok r ->
  Forall (fun c => c ∉ [double_quote; less_than; greater_than; line_feed;
                        carriage_return]) r.
Proof.
  unfold escape_js_string. destruct (truthy s); [|by intros [= <-]].
  destruct s as [| | | |t| |]; try done. intros [= <-].
  apply Forall_forall. intros c Hc Hbad.
  revert Hc. repeat (apply elem_of_cons in Hbad as [->|Hbad]);
    [absent_after_replace..|by apply not_elem_of_nil in Hbad].
Qed.

Lemma replace_char_app old new s1 s2 :
  replace_char old new (s1 ++ s2)
  = replace_char old new s1 ++ replace_char old new s2.
Proof. unfold replace_char. apply bind_app. Qed.

Lemma html_escape_app s1 s2 :
  html_escape (s1 ++ s2) = html_escape s1 ++ html_escape s2.
Proof. unfold html_escape. by rewrite !replace_char_app. Qed.

Lemma html_escape_one c : html_escape [c] = html_entity c.
Proof.
  unfold html_entity.
  repeat (case_decide; [subst c; by vm_compute|]).
  unfold html_escape, replace_char. simpl.
  rewrite decide_False by done. simpl.
  rewrite decide_False by done. simpl.
  rewrite decide_False by done. simpl.
  rewrite decide_False by done. simpl.
  by rewrite decide_False by done.
Qed.

Lemma html_escape_cons c s : html_escape (c :: s) = html_entity c ++ html_escape s.
Proof.
  change (c :: s) with ([c] ++ s). by rewrite html_escape_app, html_escape_one.
Qed.

(** No entity is a prefix of another text's escape: the first characters
    tell them apart. *)
Lemma html_entity_prefix c1 c2 r1 r2 :
  html_entity c1 ++ r1 = html_entity c2 ++ r2 -> c1 = c2 /\ r1 = r2.
Proof.
  unfold html_entity.
  repeat case_decide; subst; vm_compute; intros Heq;
    try discriminate Heq; try (injection Heq; intros; subst; done).
Qed.

Lemma html_entity_nonempty c : html_entity c <> [].
Proof. unfold html_entity. repeat case_decide; done. Qed.

Lemma html_escape_inj : Inj (=) (=) html_escape.
Proof.
  intros s1. induction s1 as [|c1 s1 IH]; intros [|c2 s2] H.
  - done.
  - rewrite html_escape_cons in H. change (html_escape []) with (@nil N) in H.
    symmetry in H. apply app_eq_nil in H as [H _]. by apply html_entity_nonempty in H.
  - rewrite html_escape_cons in H. change (html_escape []) with (@nil N) in H.
    apply app_eq_nil in H as [H _]. by apply html_entity_nonempty in H.
  - rewrite !html_escape_cons in H. apply html_entity_prefix in H as [-> H].
    f_equal. by apply IH.
Qed.

(** X15: escaping loses nothing: two titles or previews with the same
    escaped text are the same text. *)
Theorem escape_html_inj (s1 s2 : str) :
  escape_html (JStr s1) = escape_html (JStr s2) -> s1 = s2.
Proof.
  assert (Hnil : forall s, html_escape s = [] -> s = []).
  { intros [|c s]; [done|]. rewrite html_escape_cons. intros H.
    apply app_eq_nil in H as [H _]. by apply html_entity_nonempty in H. }
  unfold escape_html. destruct s1 as [|c1 s1], s2 as [|c2 s2]; simpl; try done.
  - intros [= H]. symmetry in H. by apply Hnil in H.
  - intros [= H]. by apply Hnil in H.
  - intros [= H]. by apply html_escape_inj in H.
Qed.

(** ** The export run *)

Ltac unfold_export_conversation := unfold export_conversation.
Ltac unfold_export_all := unfold export_all.

Section Run.

Variable py_str : json -> str.
Variable datetime : Type.
Variable fromtimestamp : json -> option datetime.
Variable strftime_minute : datetime -> str.
Variable strftime_day : datetime -> str.
Variable strftime_month : datetime -> str.
Variable str_title : str -> str.

Local Abbreviation export_conversation :=
  (export_conversation py_str datetime fromtimestamp strftime_minute
     strftime_day strftime_month str_title).
Local Abbreviation export_all :=
  (export_all py_str datetime fromtimestamp strftime_minute strftime_day
     strftime_month str_title).
Local Abbreviation conversation_to_markdown :=
  (conversation_to_markdown py_str datetime fromtimestamp strftime_minute
     str_title).

(** What one turn of the loop does to the state. *)
Lemma export_conversation_Ok conv (st st' : export_state datetime) :
  export_conversation conv st = Ok st' ->
  exists title created safe_title filename markdown mapping preview count,
    py_get conv "title" (JStr "Untitled") = Ok title
    /\ py_get conv "create_time" JNull = Ok created
    /\ sanitize_filename title 50 = Ok safe_title
    /\ unique_filename (filenames_used st)
         (date_prefix_of datetime strftime_day
            (timestamp_to_datetime datetime fromtimestamp created))
         safe_title = Ok filename
    /\ conversation_to_markdown conv = Ok markdown
    /\ py_get conv "mapping" (JObj []) = Ok mapping
    /\ get_first_user_message py_str mapping = Ok preview
    /\ count_messages mapping = Ok count
    /\ st' = ExportState ({[filename]} ∪ filenames_used st)
               (files st ++ [(filename, markdown)])
               (conv_data st
                ++ [IndexEntry title
                      (timestamp_to_datetime datetime fromtimestamp created)
                      filename preview count
                      (month_of datetime strftime_month
                         (timestamp_to_datetime datetime fromtimestamp
                            created))]).
Proof.
  unfold_export_conversation. intros H.
  apply bind_Ok in H as (title & Htitle & H).
  apply bind_Ok in H as (created & Hcreated & H).
  apply bind_Ok in H as (safe_title & Hsafe & H).
  apply bind_Ok in H as (filename & Hname & H).
  apply bind_Ok in H as (markdown & Hmd & H).
  apply bind_Ok in H as (mapping & Hmapping & H).
  apply bind_Ok in H as (preview & Hpreview & H).
  apply bind_Ok in H as (mapping' & Hmapping' & H).
  rewrite Hmapping in Hmapping'. injection Hmapping' as <-.
  apply bind_Ok in H as (count & Hcount & H). injection H as <-.
  by exists title, created, safe_title, filename, markdown, mapping, preview,
    count.
Qed.

(** X16: no file is written twice: the file names of a run that completes
    are pairwise different, one per conversation, and they are the names
    recorded as used. *)
Theorem export_names_distinct conversations (st : export_state datetime) :
  export_all conversations = Ok st ->
  NoDup (files st).*1
  /\ filenames_used st = list_to_set (files st).*1
  /\ exists convs, py_iter conversations = Ok convs
                  /\ length (files st) = length convs.
Proof.
  unfold_export_all. intros H.
  apply bind_Ok in H as (convs & Hconvs & H).
  assert (Hgen : forall st0 : export_state datetime,
    NoDup (files st0).*1 ->
    filenames_used st0 = list_to_set (files st0).*1 ->
    for_each export_conversation convs st0 = Ok st ->
    NoDup (files st).*1
    /\ filenames_used st = list_to_set (files st).*1
    /\ length (files st) = length (files st0) + length convs).
  { clear H Hconvs. induction convs as [|conv convs IH]; intros st0 Hnd Hused H.
    - injection H as <-. simpl. split; [done|]. split; [done|lia].
    - cbn [for_each] in H. apply bind_Ok in H as (st1 & H1 & H).
      apply export_conversation_Ok in H1
        as (title & created & safe & filename & md & mapping & preview & count
            & _ & _ & _ & Hname & _ & _ & _ & _ & ->).
      destruct (unused_filename (filenames_used st0)
                  (date_prefix_of datetime strftime_day
                     (timestamp_to_datetime datetime fromtimestamp created))
                  safe) as (f & Hf & Hfresh & _).
      rewrite Hname in Hf. injection Hf as <-.
      apply IH in H as (Hnd' & Hused' & Hlen).
      + split; [done|]. split; [done|].
        rewrite Hlen. simpl. rewrite length_app. simpl. lia.
      + simpl. rewrite fmap_app. apply NoDup_app. split; [done|].
        split; [|apply NoDup_singleton].
        intros x Hx ->%list_elem_of_singleton. apply Hfresh.
        rewrite Hused. by apply elem_of_list_to_set.
      + simpl. rewrite fmap_app, list_to_set_app_L, Hused. simpl.
        clear. set_solver. }
  destruct (Hgen (ExportState ∅ [] [])) as (Hnd & Hused & Hlen);
    [constructor|done|done|].
  split; [done|]. split; [done|]. exists convs. split; [done|]. simpl in Hlen. lia.
Qed.

Lemma pystr_cons a s : pystr (String a s) = N_of_ascii a :: pystr s.
Proof. done. Qed.

Lemma pretty_N_char_safe d : N_of_ascii (pretty_N_char d) ∉ unsafe_chars.
Proof.
  unfold pretty_N_char.
  repeat case_match; refine (bool_decide_unpack _ _); vm_compute; exact I.
Qed.

Lemma pretty_N_go_safe x : forall s,
  Forall (fun c => c ∉ unsafe_chars) (pystr s) ->
  Forall (fun c => c ∉ unsafe_chars) (pystr (pretty_N_go x s)).
Proof.
  induction (N.lt_wf_0 x) as [x _ IH]; intros s Hs.
  assert (x = 0 \/ 0 < x)%N as [->|Hx] by lia.
  - by rewrite pretty_N_go_0.
  - rewrite pretty_N_go_step by done. apply IH; [by apply N.div_lt|].
    rewrite pystr_cons. constructor; [apply pretty_N_char_safe|done].
Qed.

Lemma pretty_N_safe (k : N) :
  Forall (fun c => c ∉ unsafe_chars) (pystr (pretty k)).
Proof.
  unfold pretty, pretty_N. destruct (decide (k = 0)%N).
  - apply Forall_forall. intros c Hc.
    refine (bool_decide_unpack _ _). revert c Hc. apply Forall_forall.
    by vm_compute; repeat constructor.
  - apply pretty_N_go_safe. constructor.
Qed.

Lemma literal_safe (s : string) :
  forallb (fun c => negb (unsafe_char c)) (pystr s) = true ->
  Forall (fun c => c ∉ unsafe_chars) (pystr s).
Proof.
  intros H. apply Forall_forall. intros c Hc.
  rewrite forallb_forall in H. apply list_elem_of_In, H, negb_true_iff in Hc.
  by apply bool_decide_eq_false in Hc.
Qed.

(** X17: after its date prefix a file name has none of the characters that
    [sanitize_filename] removes, a path separator among them, and it
    ends in ".md". *)
Theorem export_names_safe conversations (st : export_state datetime) :
  export_all conversations = Ok st ->
  Forall (fun f : str * str =>
            exists (created : option datetime) (rest : str),
              f.1 = date_prefix_of datetime strftime_day created ++ rest
              /\ Forall (fun c => c ∉ unsafe_chars) rest
              /\ pystr ".md" `suffix_of` rest)
    (files st).
Proof.
  unfold_export_all. intros H.
  apply bind_Ok in H as (convs & _ & H).
  set (P := fun f : str * str =>
         exists (created : option datetime) (rest : str),
           f.1 = date_prefix_of datetime strftime_day created ++ rest
           /\ Forall (fun c => c ∉ unsafe_chars) rest
           /\ pystr ".md" `suffix_of` rest).
  assert (Hgen : forall st0 : export_state datetime,
    Forall P (files st0) ->
    for_each export_conversation convs st0 = Ok st -> Forall P (files st)).
  2:{ apply (Hgen (ExportState ∅ [] [])); [constructor|done]. }
  clear H. induction convs as [|conv convs IH]; intros st0 Hst0 H.
  - by injection H as <-.
  - cbn [for_each] in H. apply bind_Ok in H as (st1 & H1 & H).
    apply IH in H; [done|].
    apply export_conversation_Ok in H1
      as (title & created & safe & filename & md & mapping & preview & count
          & _ & _ & Hsafe & Hname & _ & _ & _ & _ & ->).
    simpl. apply Forall_app. split; [done|]. constructor; [|constructor].
    apply sanitized_safe in Hsafe as [_ Hsafe].
    destruct (unused_filename (filenames_used st0)
                (date_prefix_of datetime strftime_day
                   (timestamp_to_datetime datetime fromtimestamp created))
                safe) as (f & Hf & _ & Hform).
    rewrite Hname in Hf. injection Hf as <-.
    exists (timestamp_to_datetime datetime fromtimestamp created).
    destruct Hform as [->|[k ->]]; simpl.
    + exists (pystr "_" ++ safe ++ pystr ".md"). split; [done|]. split.
      * repeat (apply Forall_app; split); try done; by apply literal_safe.
      * by apply suffix_app_r, suffix_app_r.
    + exists (pystr "_" ++ safe ++ pystr "_" ++ pystr (pretty k) ++ pystr ".md").
      split; [done|]. split.
      * repeat (apply Forall_app; split); try done;
          try (by apply literal_safe). apply pretty_N_safe.
      * by do 4 apply suffix_app_r.
Qed.

(** X18: a run that completes has rendered every conversation: file by
    file the text written is the markdown of the conversation, and entry
    by entry [conv_data] has the name of that file with the title, the
    preview and the count of that conversation. *)
Theorem export_entries conversations convs (st : export_state datetime) :
  export_all conversations = Ok st ->
  py_iter conversations = Ok convs ->
  Forall2 (fun conv (f : str * str) => conversation_to_markdown conv = Ok f.2)
    convs (files st)
  /\ Forall2 (fun (f : str * str) e => entry_filename e = f.1)
       (files st) (conv_data st)
  /\ Forall2 (fun conv e =>
       py_get conv "title" (JStr "Untitled") = Ok (entry_title e)
       /\ exists mapping,
            py_get conv "mapping" (JObj []) = Ok mapping
            /\ get_first_user_message py_str mapping = Ok (entry_preview e)
            /\ count_messages mapping = Ok (entry_message_count e))
       convs (conv_data st).
Proof.
  unfold_export_all. intros H Hconvs. rewrite Hconvs in H.
  cbn [mbind outcome_bind] in H.
  assert (Hgen : forall pre (st0 : export_state datetime),
    Forall2 (fun conv (f : str * str) => conversation_to_markdown conv = Ok f.2)
      pre (files st0) ->
    Forall2 (fun (f : str * str) e => entry_filename e = f.1)
      (files st0) (conv_data st0) ->
    Forall2 (fun conv e =>
       py_get conv "title" (JStr "Untitled") = Ok (entry_title e)
       /\ exists mapping,
            py_get conv "mapping" (JObj []) = Ok mapping
            /\ get_first_user_message py_str mapping = Ok (entry_preview e)
            /\ count_messages mapping = Ok (entry_message_count e))
      pre (conv_data st0) ->
    for_each export_conversation convs st0 = Ok st ->
    Forall2 (fun conv (f : str * str) => conversation_to_markdown conv = Ok f.2)
      (pre ++ convs) (files st)
    /\ Forall2 (fun (f : str * str) e => entry_filename e = f.1)
         (files st) (conv_data st)
    /\ Forall2 (fun conv e =>
         py_get conv "title" (JStr "Untitled") = Ok (entry_title e)
         /\ exists mapping,
              py_get conv "mapping" (JObj []) = Ok mapping
              /\ get_first_user_message py_str mapping = Ok (entry_preview e)
              /\ count_messages mapping = Ok (entry_message_count e))
         (pre ++ convs) (conv_data st)).
  { clear H Hconvs. induction convs as [|conv convs IH];
      intros pre st0 Hfiles Hnames Hdata H.
    - injection H as <-. by rewrite app_nil_r.
    - cbn [for_each] in H. apply bind_Ok in H as (st1 & H1 & H).
      apply export_conversation_Ok in H1
        as (title & created & safe & filename & md & mapping & preview & count
            & Htitle & _ & _ & _ & Hmd & Hmapping & Hpreview & Hcount & ->).
      rewrite (cons_middle conv pre convs), !app_assoc.
      apply (IH (pre ++ [conv])) in H; [done|..].
      + simpl. apply Forall2_app; [done|]. by constructor.
      + simpl. apply Forall2_app; [done|]. by constructor.
      + simpl. apply Forall2_app; [done|]. constructor; [|constructor].
        simpl. split; [done|]. by exists mapping. }
  by apply (Hgen [] (ExportState ∅ [] [])); [constructor..|].
Qed.

Lemma replace_newlines_no_newline t : line_feed ∉ replace_newlines t.
Proof.
  unfold replace_newlines. intros H.
  apply list_elem_of_fmap in H as (c & Hc & _).
  by destruct (decide (c = 10%N)).
Qed.

(** X19: the preview has no line feed, does not start with whitespace and
    has at most 150 characters. *)
Theorem preview_clean mapping s :
  get_first_user_message py_str mapping = Ok s ->
  (line_feed ∉ s) /\ starts_clean s = true /\ length s <= 150.
Proof.
  assert (Hnil : (line_feed ∉ @nil N) /\ starts_clean [] = true
                 /\ length (@nil N) <= 150).
  { split; [apply not_elem_of_nil|]. split; [done|simpl; lia]. }
  unfold get_first_user_message.
  destruct (negb (truthy mapping)); [by intros [= <-]|].
  destruct mapping as [| | | | | |items]; try done.
  intros H. apply first_user_message_spec in H as ->.
  unfold preview_of. destruct (first_user_text py_str items) as [t|]; [|done].
  destruct (strip_infix (replace_newlines t)) as (l1 & l2 & Hstrip).
  split; [|split].
  - intros H. apply (sublist_subseteq _ _ (sublist_take _ 150)) in H.
    apply (replace_newlines_no_newline t). rewrite Hstrip.
    rewrite !elem_of_app. auto.
  - pose proof (rstrip_clean _ (lstrip_clean (replace_newlines t))) as Hc.
    rewrite <- strip_rstrip in Hc.
    rewrite <- (take_drop 150 (strip (replace_newlines t))) in Hc.
    by apply starts_clean_app in Hc.
  - rewrite length_take. lia.
Qed.

End Run.

(** ** The index page *)

(** *** Sorting *)

Section Sorting.

Context {A K : Type} (lt : K -> K -> bool) (key : A -> K).

Lemma insert_sorted_perm x l : insert_sorted lt key x l ≡ₚ x :: l.
Proof.
  induction l as [|y l IH]; simpl; [done|].
  destruct (lt (key y) (key x)); [|done].
  rewrite IH. apply Permutation_swap.
Qed.

Lemma stable_sort_perm l : stable_sort lt key l ≡ₚ l.
Proof.
  induction l as [|x l IH]; simpl; [done|].
  by rewrite insert_sorted_perm, IH.
Qed.

Lemma py_sorted_perm r l : py_sorted lt key r l ≡ₚ l.
Proof.
  unfold py_sorted. destruct r.
  - by rewrite reverse_Permutation, stable_sort_perm, reverse_Permutation.
  - apply stable_sort_perm.
Qed.

(** Stability: elements none of which is below another keep their
    order. *)
Lemma insert_sorted_filter (P : A -> Prop) `{!forall a, Decision (P a)} x l :
  (forall a b, P a -> P b -> lt (key a) (key b) = false) ->
  filter P (insert_sorted lt key x l) = filter P (x :: l).
Proof.
  intros HP. induction l as [|y l IH]; simpl; [done|].
  destruct (lt (key y) (key x)) eqn:Hyx; [|done].
  rewrite (filter_cons P y), IH, !(filter_cons P x), (filter_cons P y).
  destruct (decide (P x)) as [Hx|Hx], (decide (P y)) as [Hy|Hy]; try done.
  rewrite (HP y x Hy Hx) in Hyx. discriminate.
Qed.

Lemma stable_sort_filter (P : A -> Prop) `{!forall a, Decision (P a)} l :
  (forall a b, P a -> P b -> lt (key a) (key b) = false) ->
  filter P (stable_sort lt key l) = filter P l.
Proof.
  intros HP. induction l as [|x l IH]; simpl; [done|].
  rewrite insert_sorted_filter by done.
  by rewrite !(filter_cons P x), IH.
Qed.

Lemma py_sorted_filter (P : A -> Prop) `{!forall a, Decision (P a)} r l :
  (forall a b, P a -> P b -> lt (key a) (key b) = false) ->
  filter P (py_sorted lt key r l) = filter P l.
Proof.
  intros HP. unfold py_sorted. destruct r.
  - rewrite filter_reverse, stable_sort_filter by done.
    by rewrite filter_reverse, reverse_involutive.
  - by apply stable_sort_filter.
Qed.

Hypothesis lt_asym : forall a b, lt a b = true -> lt b a = false.
Hypothesis lt_negtrans :
  forall a b c, lt a b = false -> lt b c = false -> lt a c = false.

Lemma insert_sorted_sorted x l :
  StronglySorted (fun a b => lt (key b) (key a) = false) l ->
  StronglySorted (fun a b => lt (key b) (key a) = false)
    (insert_sorted lt key x l).
Proof using Type*.
  induction 1 as [|y l Hl IH Hy]; simpl.
  - repeat constructor.
  - destruct (lt (key y) (key x)) eqn:Hyx.
    + constructor; [done|].
      rewrite insert_sorted_perm. constructor; [by apply lt_asym|done].
    + constructor; [by constructor|]. constructor; [done|].
      eapply Forall_impl; [exact Hy|]. simpl. intros z Hz.
      by apply (lt_negtrans _ (key y)).
Qed.

Lemma stable_sort_sorted l :
  StronglySorted (fun a b => lt (key b) (key a) = false)
    (stable_sort lt key l).
Proof using Type*.
  induction l as [|x l IH]; simpl; [constructor|].
  by apply insert_sorted_sorted.
Qed.

Lemma StronglySorted_reverse (R : A -> A -> Prop) l :
  StronglySorted R l -> StronglySorted (fun a b => R b a) (reverse l).
Proof.
  induction 1 as [|x l Hl IH Hx]; [constructor|].
  rewrite reverse_cons. apply StronglySorted_app_2.
  - intros a b Ha Hb. apply list_elem_of_singleton in Hb as ->.
    apply elem_of_reverse_2 in Ha. rewrite reverse_involutive in Ha.
    rewrite Forall_forall in Hx. by apply Hx.
  - done.
  - repeat constructor.
Qed.

(** With [reverse=True] no element is below a later one. *)
Lemma py_sorted_descending l :
  StronglySorted (fun a b => lt (key a) (key b) = false)
    (py_sorted lt key true l).
Proof using Type*.
  unfold py_sorted.
  apply (StronglySorted_reverse (fun a b => lt (key b) (key a) = false)).
  apply stable_sort_sorted.
Qed.

End Sorting.

(** *** The order of [str] *)

Lemma str_lt_asym a b : str_lt a b = true -> str_lt b a = false.
Proof.
  revert b. induction a as [|x a IH]; intros [|y b]; simpl; try done.
  destruct (N.ltb_spec x y), (N.eqb_spec x y), (N.ltb_spec y x),
    (N.eqb_spec y x); simpl; try done; try lia.
  apply IH.
Qed.

Lemma str_lt_negtrans a b c :
  str_lt a b = false -> str_lt b c = false -> str_lt a c = false.
Proof.
  revert b c. induction a as [|x a IH]; intros [|y b] [|z c]; simpl;
    try done.
  destruct (N.ltb_spec x y), (N.eqb_spec x y), (N.ltb_spec y z),
    (N.eqb_spec y z), (N.ltb_spec x z), (N.eqb_spec x z);
    simpl; try done; try lia.
  apply IH.
Qed.

Lemma str_lt_total a b : str_lt a b = false -> str_lt b a = false -> a = b.
Proof.
  revert b. induction a as [|x a IH]; intros [|y b]; simpl; try done.
  destruct (N.ltb_spec x y), (N.eqb_spec x y), (N.ltb_spec y x),
    (N.eqb_spec y x); simpl; try done; try lia.
  intros. subst. f_equal. by apply IH.
Qed.

(** *** The months *)

Section Months.

Context {A : Type} (month_of : A -> str).

Lemma month_append_keys k (c : A) by_month :
  (month_append k c by_month).*1
  = if decide (k ∈ by_month.*1) then by_month.*1 else by_month.*1 ++ [k].
Proof.
  induction by_month as [|[m cs] rest IH].
  - simpl. destruct (decide (k ∈ [])) as [Hk|Hk]; [|done].
    by apply elem_of_nil in Hk.
  - cbn [month_append fmap list_fmap fst].
    destruct (decide (m = k)) as [->|Hm]; cbn [fmap list_fmap fst].
    + rewrite decide_True; [done|]. apply list_elem_of_here.
    + rewrite IH. destruct (decide (k ∈ rest.*1)) as [Hk|Hk].
      * rewrite decide_True; [done|]. by apply list_elem_of_further.
      * rewrite decide_False; [done|].
        intros [?|?]%elem_of_cons; congruence.
Qed.

Lemma month_convs_append m k (c : A) by_month :
  month_convs m (month_append k c by_month)
  = if decide (k = m) then month_convs m by_month ++ [c]
    else month_convs m by_month.
Proof.
  induction by_month as [|[m' cs] rest IH]; simpl.
  - destruct (decide (k = m)); done.
  - destruct (decide (m' = k)) as [->|Hk]; simpl.
    + destruct (decide (k = m)); done.
    + destruct (decide (m' = m)) as [->|Hm].
      * rewrite decide_False; [done|]. congruence.
      * apply IH.
Qed.

Lemma month_convs_absent m (by_month : list (str * list A)) :
  m ∉ by_month.*1 -> month_convs m by_month = [].
Proof.
  induction by_month as [|[m' cs] rest IH]; simpl; [done|].
  intros Hm. rewrite decide_False.
  - apply IH. intros ?. apply Hm. by apply list_elem_of_further.
  - intros ->. apply Hm. apply list_elem_of_here.
Qed.

Lemma month_convs_fmap (f : list A -> list A) m by_month :
  f [] = [] ->
  month_convs m ((fun '(month, convs) => (month, f convs)) <$> by_month)
  = f (month_convs m by_month).
Proof.
  intros Hf. induction by_month as [|[m' cs] rest IH]; simpl; [done|].
  destruct (decide (m' = m)); done.
Qed.

Lemma keys_fmap (f : list A -> list A) (by_month : list (str * list A)) :
  ((fun '(month, convs) => (month, f convs)) <$> by_month).*1 = by_month.*1.
Proof.
  induction by_month as [|[m' cs] rest IH]; [done|].
  cbn [fmap list_fmap fst]. f_equal. exact IH.
Qed.

(** The first loop, from any [by_month]. *)
Lemma grouped_keys (l : list A) by_month :
  NoDup by_month.*1 ->
  NoDup (foldl (fun by_month c => month_append (month_of c) c by_month)
           by_month l).*1
  /\ forall k,
       k ∈ (foldl (fun by_month c => month_append (month_of c) c by_month)
              by_month l).*1
       <-> k ∈ by_month.*1 \/ exists c, c ∈ l /\ month_of c = k.
Proof.
  revert by_month. induction l as [|c l IH]; intros by_month Hnd; simpl.
  - split; [done|]. intros k. split; [by left|].
    intros [?|(c & Hc & _)]; [done|]. by apply elem_of_nil in Hc.
  - assert (NoDup (month_append (month_of c) c by_month).*1) as Hnd'.
    { rewrite month_append_keys. case_decide; [done|].
      apply NoDup_app. split; [done|]. split; [|apply NoDup_singleton].
      intros k Hk ->%list_elem_of_singleton. done. }
    destruct (IH _ Hnd') as [IH1 IH2]. split; [done|].
    intros k. rewrite IH2, month_append_keys. split.
    + intros [Hk|(c' & Hc' & <-)].
      * case_decide; [by left|].
        apply elem_of_app in Hk as [Hk|Hk%list_elem_of_singleton];
          [by left|].
        right. exists c. split; [apply list_elem_of_here|done].
      * right. exists c'. split; [by apply list_elem_of_further|done].
    + intros [Hk|(c' & [->|Hc']%elem_of_cons & <-)].
      * left. case_decide; [done|]. apply elem_of_app. by left.
      * left. case_decide; [done|]. apply elem_of_app. right.
        apply list_elem_of_here.
      * right. by exists c'.
Qed.

Lemma grouped_convs m (l : list A) by_month :
  month_convs m
    (foldl (fun by_month c => month_append (month_of c) c by_month)
       by_month l)
  = month_convs m by_month ++ filter (fun c => month_of c = m) l.
Proof.
  revert by_month. induction l as [|c l IH]; intros by_month; simpl.
  - by rewrite app_nil_r.
  - rewrite IH, month_convs_append, filter_cons.
    destruct (decide (month_of c = m)); [|done].
    by rewrite <- app_assoc.
Qed.

(** The months partition the list. *)
Lemma concat_by_month (keys : list str) (l : list A) :
  NoDup keys -> (forall c, c ∈ l -> month_of c ∈ keys) ->
  concat ((fun m => filter (fun c => month_of c = m) l) <$> keys) ≡ₚ l.
Proof.
  intros Hnd. revert l. induction Hnd as [|k keys Hk Hnd IH]; intros l Hl.
  - destruct l as [|c l]; [done|].
    destruct (not_elem_of_nil (month_of c)). apply Hl, list_elem_of_here.
  - cbn [fmap list_fmap concat].
    etrans; [|apply (filter_app_complement (fun c => month_of c = k) l)].
    apply Permutation_app; [done|].
    etrans; [|apply (IH (filter (fun c => month_of c <> k) l))].
    + apply reflexive_eq. f_equal. apply Forall_fmap_ext_1, Forall_forall.
      intros m Hm. symmetry. apply list_filter_filter_l.
      intros c -> ->. done.
    + intros c [Hc Hin]%list_elem_of_filter.
      pose proof (Hl c Hin) as [?|?]%elem_of_cons; done.
Qed.

End Months.

Lemma concat_fmap_perm {A B : Type} (f g : B -> list A) (l : list B) :
  (forall b, f b ≡ₚ g b) -> concat (f <$> l) ≡ₚ concat (g <$> l).
Proof.
  intros Hfg. induction l as [|b l IH]; [done|].
  cbn [fmap list_fmap concat]. by apply Permutation_app.
Qed.

Lemma descending_strict (keys : list str) :
  NoDup keys ->
  StronglySorted (fun a b => str_lt a b = false) keys ->
  StronglySorted (fun a b => str_lt b a = true) keys.
Proof.
  intros Hnd Hs. induction Hs as [|k keys Hs IH Hk]; [constructor|].
  apply NoDup_cons in Hnd as [Hnotin Hnd]. constructor; [by apply IH|].
  rewrite Forall_forall in Hk |- *. intros b Hb.
  destruct (str_lt b k) eqn:Hbk; [done|].
  destruct Hnotin. by rewrite (str_lt_total k b (Hk b Hb) Hbk).
Qed.

Ltac unfold_index_groups := unfold index_groups.
Ltac unfold_group_by_month := unfold group_by_month.
Ltac unfold_generate_html_index := unfold generate_html_index.
Ltac unfold_export_run := unfold export_run.
Ltac unfold_index_row_of := unfold index_row_of.
Ltac unfold_index_section_of := unfold index_section_of.
Ltac step_index_rows := cbn [index_rows].
Ltac step_index_sections_of :=
  cbn [index_sections_of fmap list_fmap concat snd].

(** *** The index page *)

Section Page.

Variable py_str : json -> str.
Variable datetime : Type.
Variable fromtimestamp : json -> option datetime.
Variable strftime_minute : datetime -> str.
Variable strftime_day : datetime -> str.
Variable strftime_month : datetime -> str.
Variable str_title : str -> str.
Variable datetime_lt : datetime -> datetime -> bool.
Variable datetime_min : datetime.
Variable strftime_date : datetime -> str.
Variable strptime_month : str -> option str.
Variable str_lower : str -> str.

Local Abbreviation export_conversation :=
  (export_conversation py_str datetime fromtimestamp strftime_minute
     strftime_day strftime_month str_title).
Local Abbreviation export_all :=
  (export_all py_str datetime fromtimestamp strftime_minute strftime_day
     strftime_month str_title).
Local Abbreviation date_key := (date_key datetime datetime_min).
Local Abbreviation index_groups :=
  (index_groups datetime datetime_lt datetime_min).
Local Abbreviation index_row_of :=
  (index_row_of datetime strftime_date str_lower).
Local Abbreviation index_rows := (index_rows datetime strftime_date str_lower).
Local Abbreviation index_sections_of :=
  (index_sections_of datetime strftime_date strptime_month str_lower).
Local Abbreviation generate_html_index :=
  (generate_html_index datetime datetime_lt datetime_min strftime_date
     strptime_month str_lower).
Local Abbreviation export_run :=
  (export_run py_str datetime fromtimestamp strftime_minute strftime_day
     strftime_month str_title datetime_lt datetime_min strftime_date
     strptime_month str_lower).

(** The sections are those of the months of the conversations, each
    month once, and a section has the conversations of its month, sorted. *)
Lemma index_groups_months (conv_data : list (index_entry datetime)) :
  exists months,
    NoDup months
    /\ (forall m, m ∈ months <-> exists c, c ∈ conv_data /\ entry_month c = m)
    /\ StronglySorted (fun a b => str_lt a b = false) months
    /\ index_groups conv_data
       = (fun m => (m, py_sorted datetime_lt date_key true
                         (filter (fun c => entry_month c = m) conv_data)))
         <$> months.
Proof.
  unfold_index_groups.
  destruct (grouped_keys entry_month conv_data [] (NoDup_nil_2))
    as [Hnd Hkeys].
  exists (py_sorted str_lt id true
            (foldl (fun by_month c => month_append (entry_month c) c by_month)
               [] conv_data).*1).
  split; [by rewrite py_sorted_perm|].
  split.
  { intros m. rewrite py_sorted_perm, Hkeys. split; [|by right].
    intros [Hm|Hm]; [by apply elem_of_nil in Hm|done]. }
  split.
  { apply py_sorted_descending; [apply str_lt_asym|apply str_lt_negtrans]. }
  unfold_group_by_month. rewrite keys_fmap.
  apply Forall_fmap_ext_1, Forall_forall. intros m _. f_equal.
  rewrite (month_convs_fmap (py_sorted datetime_lt date_key true)) by done.
  by rewrite (grouped_convs entry_month).
Qed.

Lemma index_lists_each_once_perm (conv_data : list (index_entry datetime)) :
  concat (index_groups conv_data).*2 ≡ₚ conv_data.
Proof.
  destruct (index_groups_months conv_data)
    as (months & Hnd & Hmonths & _ & ->).
  rewrite <- list_fmap_compose.
  etrans; [|apply (concat_by_month entry_month months conv_data Hnd)].
  - apply concat_fmap_perm. intros m. apply py_sorted_perm.
  - intros c Hc. apply Hmonths. by exists c.
Qed.

Lemma escape_html_str t : exists r, escape_html (JStr t) = Ok r.
Proof. unfold escape_html. destruct (truthy (JStr t)); by eexists. Qed.

Lemma escape_js_string_str t : exists r, escape_js_string (JStr t) = Ok r.
Proof.
  unfold escape_js_string. destruct (negb (truthy (JStr t))); by eexists.
Qed.

(** A row is written for a title that is a [str]; any other title is an
    [AttributeError]: it has no [lower]. *)
Lemma index_row_of_str (c : index_entry datetime) t :
  entry_title c = JStr t ->
  exists row, index_row_of c = Ok row /\ row_href row = entry_filename c.
Proof.
  intros Ht. unfold_index_row_of. rewrite Ht.
  destruct (escape_html_str t) as [r1 ->].
  destruct (escape_html_str (entry_preview c)) as [r2 ->].
  cbn [mbind outcome_bind py_lower].
  destruct (escape_js_string_str (str_lower t)) as [r3 ->].
  destruct (escape_js_string_str (str_lower (entry_preview c))) as [r4 ->].
  cbn [mbind outcome_bind]. by eexists.
Qed.

Lemma index_row_of_other (c : index_entry datetime) :
  (forall t, entry_title c <> JStr t) ->
  index_row_of c = Raise AttributeError.
Proof.
  intros Ht. unfold_index_row_of.
  destruct (escape_html_str (entry_preview c)) as [r2 ->].
  destruct (entry_title c) as [| | | |t| |] eqn:Htitle;
    try (by destruct (Ht t));
    unfold escape_html;
    match goal with |- context [truthy ?v] => destruct (truthy v) end;
    reflexivity.
Qed.

Lemma index_rows_cases (convs : list (index_entry datetime)) :
  (Forall (fun c => exists t, entry_title c = JStr t) convs
   /\ exists rows, index_rows convs = Ok rows
                   /\ row_href <$> rows = entry_filename <$> convs)
  \/ (Exists (fun c => forall t, entry_title c <> JStr t) convs
      /\ index_rows convs = Raise AttributeError).
Proof.
  induction convs as [|c convs IH].
  - left. split; [constructor|]. by exists [].
  - step_index_rows.
    destruct (entry_title c) as [| | | |t| |] eqn:Htitle.
    5: { destruct (index_row_of_str c t Htitle) as (row & -> & Hhref).
         cbn [mbind outcome_bind].
         destruct IH as [(Hall & rows & -> & Hrows)|(Hex & ->)].
         - left. split; [constructor; [by exists t|done]|].
           exists (row :: rows). split; [done|].
           cbn [fmap list_fmap]. by f_equal.
         - right. split; [by apply Exists_cons_tl|done]. }
    all: right; split;
      [apply Exists_cons_hd; intros t; rewrite Htitle; discriminate|];
      rewrite index_row_of_other; [done|];
      intros t; rewrite Htitle; discriminate.
Qed.

Lemma index_sections_of_cases
    (groups : list (str * list (index_entry datetime))) :
  (Forall (fun c => exists t, entry_title c = JStr t) (concat groups.*2)
   /\ exists sections,
        index_sections_of groups = Ok sections
        /\ Forall2 (fun group s =>
                      section_month s = group.1
                      /\ section_count s = length (section_rows s)
                      /\ row_href <$> section_rows s
                         = entry_filename <$> group.2)
             groups sections)
  \/ (Exists (fun c => forall t, entry_title c <> JStr t) (concat groups.*2)
      /\ index_sections_of groups = Raise AttributeError).
Proof.
  induction groups as [|[month convs] groups IH].
  - left. split; [constructor|]. exists []. split; [done|constructor].
  - step_index_sections_of. unfold_index_section_of. cbn [fst snd].
    destruct (index_rows_cases convs) as [(Hall & rows & -> & Hrows)|(Hex & ->)].
    + cbn [mbind outcome_bind].
      destruct IH as [(Hall' & sections & -> & Hsections)|(Hex & ->)].
      * left. split; [by apply Forall_app|].
        eexists. split; [done|]. constructor; [|done].
        cbn [section_month section_count section_rows fst snd].
        split; [done|]. split; [|done].
        by rewrite <- (length_fmap row_href), Hrows, length_fmap.
      * right. split; [|done]. apply Exists_app. by right.
    + right. split; [|done]. apply Exists_app. by left.
Qed.

Lemma sections_links (groups : list (str * list (index_entry datetime)))
    (sections : list index_section) :
  Forall2 (fun group s =>
             section_month s = group.1
             /\ section_count s = length (section_rows s)
             /\ row_href <$> section_rows s = entry_filename <$> group.2)
    groups sections ->
  concat ((fun s => row_href <$> section_rows s) <$> sections)
  = entry_filename <$> concat groups.*2.
Proof.
  induction 1 as [|group s groups sections (_ & _ & Hrows) _ IH]; [done|].
  cbn [fmap list_fmap concat]. by rewrite fmap_app, Hrows, IH.
Qed.

Lemma generate_html_index_cases (conv_data : list (index_entry datetime)) :
  (Forall (fun c => exists t, entry_title c = JStr t) conv_data
   /\ exists sections,
        generate_html_index conv_data = Ok (length conv_data, sections)
        /\ Forall2 (fun group s =>
                      section_month s = group.1
                      /\ section_count s = length (section_rows s)
                      /\ row_href <$> section_rows s
                         = entry_filename <$> group.2)
             (index_groups conv_data) sections
        /\ concat ((fun s => row_href <$> section_rows s) <$> sections)
           ≡ₚ entry_filename <$> conv_data)
  \/ (Exists (fun c => forall t, entry_title c <> JStr t) conv_data
      /\ generate_html_index conv_data = Raise AttributeError).
Proof.
  unfold_generate_html_index.
  pose proof (index_lists_each_once_perm conv_data) as Hperm.
  destruct (index_sections_of_cases (index_groups conv_data))
    as [(Hall & sections & -> & Hsections)|(Hex & ->)].
  - left. rewrite Hperm in Hall. split; [done|]. exists sections.
    split; [done|]. split; [done|].
    by rewrite (sections_links _ _ Hsections), Hperm.
  - right. split; [|done]. apply Exists_exists in Hex as (c & Hc & Hbad).
    apply Exists_exists. exists c. by rewrite <- Hperm.
Qed.

(** X20: a page that is written lists every conversation exactly once,
    in the section of its month: section by section the links are the
    file names of the conversations of that month, all links together
    are the file names of [conv_data] in another order, and the numbers
    of conversations shown, of the page and of each section, are
    right. *)
Theorem index_lists_each_once (conv_data : list (index_entry datetime))
    n sections :
  generate_html_index conv_data = Ok (n, sections) ->
  n = length conv_data
  /\ concat ((fun s => row_href <$> section_rows s) <$> sections)
     ≡ₚ entry_filename <$> conv_data
  /\ Forall2 (fun group s =>
                section_month s = group.1
                /\ section_count s = length (section_rows s)
                /\ row_href <$> section_rows s = entry_filename <$> group.2)
       (index_groups conv_data) sections
  /\ Forall (fun group => Forall (fun c => entry_month c = group.1) group.2)
       (index_groups conv_data).
Proof.
  intros H.
  destruct (generate_html_index_cases conv_data)
    as [(_ & sections' & Hok & Hsections & Hlinks)|(_ & Hraise)];
    [|rewrite Hraise in H; discriminate].
  rewrite Hok in H. injection H as <- <-.
  split; [done|]. split; [done|]. split; [done|].
  destruct (index_groups_months conv_data) as (months & _ & _ & _ & ->).
  apply Forall_fmap, Forall_forall. intros m _. unfold compose.
  cbn [fst snd]. rewrite py_sorted_perm. apply Forall_forall.
  by intros c [Hc _]%list_elem_of_filter.
Qed.

Lemma sections_months (groups : list (str * list (index_entry datetime)))
    (sections : list index_section) :
  Forall2 (fun group s =>
             section_month s = group.1
             /\ section_count s = length (section_rows s)
             /\ row_href <$> section_rows s = entry_filename <$> group.2)
    groups sections ->
  section_month <$> sections = groups.*1.
Proof.
  induction 1 as [|group s groups sections (Hmonth & _) _ IH]; [done|].
  cbn [fmap list_fmap]. by rewrite Hmonth, IH.
Qed.

(** X21: the sections of a page that is written are in descending order
    of their months, as [str], no month has two sections, the months are
    those of the conversations and no section is without rows. *)
Theorem index_months_descending (conv_data : list (index_entry datetime))
    n sections :
  generate_html_index conv_data = Ok (n, sections) ->
  StronglySorted (fun a b => str_lt b a = true) (section_month <$> sections)
  /\ (forall m, m ∈ section_month <$> sections
                <-> exists c, c ∈ conv_data /\ entry_month c = m)
  /\ Forall (fun s => section_rows s <> []) sections.
Proof.
  intros H.
  destruct (generate_html_index_cases conv_data)
    as [(_ & sections' & Hok & Hsections & _)|(_ & Hraise)];
    [|rewrite Hraise in H; discriminate].
  rewrite Hok in H. injection H as _ <-.
  rewrite (sections_months _ _ Hsections).
  destruct (index_groups_months conv_data)
    as (months & Hnd & Hmonths & Hsorted & Hgroups).
  rewrite Hgroups in Hsections |- *. rewrite <- list_fmap_compose.
  assert ((fst ∘ (fun m => (m, py_sorted datetime_lt date_key true
                                (filter (fun c => entry_month c = m)
                                   conv_data)))) <$> months = months) as ->.
  { rewrite <- (list_fmap_id months) at 2.
    by apply Forall_fmap_ext_1, Forall_forall. }
  split; [by apply descending_strict|]. split; [done|].
  apply Forall2_fmap_l in Hsections.
  eapply Forall2_Forall_r; [exact Hsections|].
  apply Forall_forall. intros m Hm s (_ & _ & Hrows) Hnil.
  rewrite Hnil in Hrows. cbn [fst snd fmap list_fmap] in Hrows.
  symmetry in Hrows. apply fmap_nil_inv in Hrows.
  apply Hmonths in Hm as (c & Hc & Hmonth).
  assert (c ∈ py_sorted datetime_lt date_key true
                (filter (fun c => entry_month c = m) conv_data)) as Hin.
  { rewrite py_sorted_perm. by apply list_elem_of_filter. }
  rewrite Hrows in Hin. by apply elem_of_nil in Hin.
Qed.

(** X22: in a section the conversations are in descending order of their
    dates, one without a date counting as [datetime.min], and those of
    the same date are in the order of the export. *)
Theorem index_rows_by_date (conv_data : list (index_entry datetime)) :
  (forall a b, datetime_lt a b = true -> datetime_lt b a = false) ->
  (forall a b c, datetime_lt a b = false -> datetime_lt b c = false ->
                 datetime_lt a c = false) ->
  Forall (fun group =>
            StronglySorted
              (fun a b => datetime_lt (date_key a) (date_key b) = false)
              group.2
            /\ forall d,
                 filter (fun c => datetime_lt (date_key c) d = false
                                  /\ datetime_lt d (date_key c) = false)
                   group.2
                 = filter (fun c => datetime_lt (date_key c) d = false
                                    /\ datetime_lt d (date_key c) = false)
                     (filter (fun c => entry_month c = group.1) conv_data))
    (index_groups conv_data).
Proof.
  intros Hasym Hneg.
  destruct (index_groups_months conv_data) as (months & _ & _ & _ & ->).
  apply Forall_fmap, Forall_forall. intros m _. unfold compose.
  cbn [fst snd]. split.
  - by apply py_sorted_descending.
  - intros d. apply py_sorted_filter. intros a b [Ha _] [_ Hb].
    by apply (Hneg _ d).
Qed.

Lemma str_title_cases {B : Type} (title : B -> json) (l : list B) :
  Forall (fun c => exists t, title c = JStr t) l ->
  Exists (fun c => forall t, title c <> JStr t) l -> False.
Proof.
  intros Hall (c & Hc & Hbad)%Exists_exists.
  rewrite Forall_forall in Hall. destruct (Hall c Hc) as [t Ht].
  by destruct (Hbad t).
Qed.

(** X23: a title that is not a [str], a null title for instance, is an
    [AttributeError], raised before anything of the page is written; so
    a page is produced only if every title is a [str]. *)
Theorem index_needs_str_titles (conv_data : list (index_entry datetime)) :
  (Exists (fun c => forall t, entry_title c <> JStr t) conv_data ->
   generate_html_index conv_data = Raise AttributeError)
  /\ (forall index, generate_html_index conv_data = Ok index ->
      Forall (fun c => exists t, entry_title c = JStr t) conv_data).
Proof.
  destruct (generate_html_index_cases conv_data)
    as [(Hall & sections & Hok & _)|(Hex & Hraise)].
  - split; [|done].
    intros Hex. destruct (str_title_cases entry_title _ Hall Hex).
  - split; [done|]. intros index Hok. rewrite Hraise in Hok. discriminate.
Qed.

(** What the loop of [main] leaves in [conv_data]. *)
Lemma for_each_export_data convs pre (st0 st : export_state datetime) :
  for_each export_conversation convs st0 = Ok st ->
  entry_filename <$> conv_data st0 = (files st0).*1 ->
  Forall2 (fun conv e =>
             py_get conv "title" (JStr "Untitled") = Ok (entry_title e))
    pre (conv_data st0) ->
  entry_filename <$> conv_data st = (files st).*1
  /\ Forall2 (fun conv e =>
                py_get conv "title" (JStr "Untitled") = Ok (entry_title e))
       (pre ++ convs) (conv_data st).
Proof.
  revert pre st0. induction convs as [|conv convs IH];
    intros pre st0 H Hnames Htitles.
  - injection H as <-. by rewrite app_nil_r.
  - cbn [for_each] in H. apply bind_Ok in H as (st1 & H1 & H).
    apply (export_conversation_Ok py_str datetime fromtimestamp
             strftime_minute strftime_day strftime_month str_title) in H1
      as (title & created & safe & filename & md & mapping & preview & count
          & Htitle & _ & _ & _ & _ & _ & _ & _ & ->).
    rewrite (cons_middle conv pre convs), !app_assoc.
    apply (IH (pre ++ [conv])) in H; [done|..].
    + simpl. by rewrite !fmap_app, Hnames.
    + simpl. apply Forall2_app; [done|]. by constructor.
Qed.

Lemma export_all_data conversations convs (st : export_state datetime) :
  export_all conversations = Ok st ->
  py_iter conversations = Ok convs ->
  entry_filename <$> conv_data st = (files st).*1
  /\ Forall2 (fun conv e =>
                py_get conv "title" (JStr "Untitled") = Ok (entry_title e))
       convs (conv_data st).
Proof.
  unfold_export_all. intros H Hconvs. rewrite Hconvs in H.
  cbn [mbind outcome_bind] in H.
  by apply (for_each_export_data convs [] (ExportState ∅ [] []));
    [|done|constructor].
Qed.

(** X24: a run that completes links every file it wrote exactly once:
    the links of the page, in order, are the names of the files in
    another order, and the page counts as many conversations as there
    are files, each section as many as it has rows. *)
Theorem index_links_files conversations fs n sections :
  export_run conversations = Ok (fs, (n, sections)) ->
  n = length fs
  /\ concat ((fun s => row_href <$> section_rows s) <$> sections) ≡ₚ fs.*1
  /\ Forall (fun s => section_count s = length (section_rows s)) sections.
Proof.
  unfold_export_run. intros H.
  apply bind_Ok in H as (st & Hst & H).
  apply bind_Ok in H as (index & Hindex & H). injection H as <- ->.
  assert (exists convs, py_iter conversations = Ok convs) as [convs Hconvs].
  { revert Hst. unfold_export_all. intros Hst.
    apply bind_Ok in Hst as (convs & Hconvs & _). by exists convs. }
  destruct (export_all_data conversations convs st Hst Hconvs) as [Hnames _].
  destruct (generate_html_index_cases (conv_data st))
    as [(_ & sections' & Hok & Hsections & Hlinks)|(_ & Hraise)].
  - rewrite Hok in Hindex. injection Hindex as Hn <-.
    split; [|split].
    + by rewrite <- Hn, <- (length_fmap entry_filename), Hnames, length_fmap.
    + by rewrite Hlinks, Hnames.
    + clear -Hsections. induction Hsections as [|? ? ? ? (_ & ? & _)];
        by constructor.
  - rewrite Hraise in Hindex. discriminate.
Qed.

(** X25: when the loop over the conversations completes, a title that
    is not a [str], a null title for instance, ends the run with an
    [AttributeError] once the files are written; so a run completes only
    if every title is a [str], the default of a conversation without
    title included. *)
Theorem run_needs_str_titles conversations convs (st : export_state datetime) :
  export_all conversations = Ok st ->
  py_iter conversations = Ok convs ->
  (Exists (fun conv => forall t, py_get conv "title" (JStr "Untitled")
                                 <> Ok (JStr t)) convs ->
   export_run conversations = Raise AttributeError)
  /\ (forall result, export_run conversations = Ok result ->
      Forall (fun conv => exists t, py_get conv "title" (JStr "Untitled")
                                    = Ok (JStr t)) convs).
Proof.
  intros Hst Hconvs.
  destruct (export_all_data conversations convs st Hst Hconvs)
    as [_ Htitles].
  unfold_export_run. rewrite Hst. cbn [mbind outcome_bind].
  destruct (generate_html_index_cases (conv_data st))
    as [(Hall & sections & -> & _)|(Hex & ->)].
  - split.
    + intros (conv & Hconv & Hbad)%Exists_exists.
      apply list_elem_of_lookup in Hconv as [i Hi].
      destruct (Forall2_lookup_l _ _ _ _ _ Htitles Hi) as (e & He & Htitle).
      rewrite Forall_forall in Hall.
      destruct (Hall e) as [t Ht]; [by eapply list_elem_of_lookup_2|].
      destruct (Hbad t). by rewrite Htitle, Ht.
    + intros result _. apply Forall_forall. intros conv Hconv.
      apply list_elem_of_lookup in Hconv as [i Hi].
      destruct (Forall2_lookup_l _ _ _ _ _ Htitles Hi) as (e & He & Htitle).
      rewrite Forall_forall in Hall.
      destruct (Hall e) as [t Ht]; [by eapply list_elem_of_lookup_2|].
      exists t. by rewrite Htitle, Ht.
  - split; [done|]. intros result Hok. discriminate.
Qed.

End Page.

(** ** The results at the concrete inputs *)

(** C2 as stated fails: the thread of [bare_root] is empty although its
    node has an absent parent. *)
Lemma empty_thread_with_root :
  first_parentless bare_root = Some (pystr "r")
  /\ build_message_thread plain_str (JObj bare_root) = Ok []
  /\ ~ (build_message_thread plain_str (JObj bare_root) = Ok []
        <-> first_parentless bare_root = None).
Proof.
  split; [reflexivity|]. split; [reflexivity|].
  intros [H _]. specialize (H eq_refl). discriminate H.
Qed.

Lemma build_message_thread_root_witness :
  build_message_thread plain_str (JObj orphans) = Ok []
  /\ build_message_thread plain_str (JObj scenario)
     = thread_from plain_str (nodes_of scenario) (pystr "root").
Proof.
  split.
  - apply (proj1 (build_message_thread_root plain_str orphans eq_refl)).
    reflexivity.
  - apply (proj2 (build_message_thread_root plain_str scenario eq_refl)).
    + reflexivity.
    + vm_compute. discriminate.
Defined.

Lemma thread_visits_each_node_once_witness :
  exists order : list str,
    NoDup order
    /\ [Msg (pystr "user") (pystr "one") JNull;
        Msg (pystr "user") (pystr "three") JNull;
        Msg (pystr "assistant") (pystr "two") JNull]
       = concat (node_messages plain_str (nodes_of diamond) <$> order)
    /\ forall id, length (node_messages plain_str (nodes_of diamond) id) <= 1.
Proof.
  apply (thread_visits_each_node_once plain_str diamond).
  vm_compute. reflexivity.
Defined.

Lemma thread_entries_shown_witness :
  exists id node,
    (id, node) ∈ scenario
    /\ shown_as plain_str node (Msg (pystr "user") (pystr "Hi") JNull).
Proof.
  apply (thread_entries_shown plain_str scenario
           [Msg (pystr "user") (pystr "Hi") JNull;
            Msg (pystr "assistant") (pystr "Hello") JNull]).
  - vm_compute. reflexivity.
  - apply list_elem_of_here.
Defined.



Lemma traversal_terminates_witness :
  traverse plain_str (nodes_of diamond) 5 (JStr (pystr "root")) (TState ∅ [])
  <> OutOfFuel
  /\ forall fuel', 5 <= fuel' ->
       traverse plain_str (nodes_of diamond) fuel' (JStr (pystr "root"))
         (TState ∅ [])
       = traverse plain_str (nodes_of diamond) 5 (JStr (pystr "root"))
           (TState ∅ []).
Proof.
  apply (proj2 (traversal_terminates plain_str)). vm_compute. lia.
Defined.

(** The preview of the untidy message is ab, a space and 147 times c;
    that of the long message 100 times a, a space and 49 times b. *)
Lemma preview_first_user_message_witness :
  get_first_user_message plain_str (JObj untidy_message)
  = Ok ([97; 98; 32]%N ++ replicate 147 99%N)
  /\ get_first_user_message plain_str (JObj long_message)
     = Ok (replicate 100 97%N ++ [32%N] ++ replicate 49 98%N)
  /\ preview_of plain_str long_message
     = take 150 (strip (replace_newlines long_text))
  /\ length (preview_of plain_str long_message) = 150
  /\ exists pre trimmed post,
       (fun c => if decide (c = 10%N) then 32%N else c) <$> untidy_text
       = pre ++ trimmed ++ post
       /\ Forall (fun c => c ∈ whitespace_chars) pre
       /\ Forall (fun c => c ∈ whitespace_chars) post
       /\ (forall c, head trimmed = Some c -> c ∉ whitespace_chars)
       /\ (forall c, last trimmed = Some c -> c ∉ whitespace_chars)
       /\ preview_of plain_str untidy_message = take 150 trimmed.
Proof.
  split; [|split].
  - rewrite (proj1 (preview_first_user_message plain_str untidy_message)
               eq_refl).
    vm_compute. reflexivity.
  - rewrite (proj1 (preview_first_user_message plain_str long_message)
               eq_refl).
    vm_compute. reflexivity.
  - assert (150 <= length (strip (replace_newlines long_text))) as Hlen
      by (vm_compute; lia).
    destruct (proj1 (proj2 (proj2 (proj2
                (preview_first_user_message plain_str long_message))))
                long_text eq_refl Hlen) as [Hcut Hlength].
    split; [exact Hcut|]. split; [exact Hlength|].
    apply (proj1 (proj2 (proj2 (proj2 (proj2
             (preview_first_user_message plain_str untidy_message)))))).
    reflexivity.
Defined.

Lemma count_messages_spec_witness :
  count_messages (JObj orphans) = Ok (count_user_assistant orphans)
  /\ count_user_assistant orphans = 2%Z.
Proof.
  split.
  - apply (proj1 (count_messages_spec orphans)). reflexivity.
  - reflexivity.
Defined.




(** ** The further results at concrete inputs *)

Lemma sanitize_filename_safe_witness :
  pystr "Trip ab" <> []
  /\ Forall (fun c => c ∉ unsafe_chars) (pystr "Trip ab").
Proof.
  apply (sanitize_filename_safe (JStr (pystr "Trip: a/b")) 50).
  vm_compute. reflexivity.
Defined.

Lemma sanitize_filename_tidy_witness : tidy (pystr "What is a b") = true.
Proof.
  apply (sanitize_filename_tidy (JStr (pystr "  What   is: a <b>?  ")) 50).
  vm_compute. reflexivity.
Defined.

(** With room for four characters the title is cut at its last space;
    with room for none the name is Untitled, of 8 characters. *)
Lemma sanitize_filename_length_witness :
  (Z.of_nat (length (pystr "ab")) <= Z.max 4 8)%Z
  /\ (Z.of_nat (length (pystr "Untitled")) <= Z.max 0 8)%Z.
Proof.
  split.
  - apply (sanitize_filename_length (JStr (pystr "ab cd")) 4); [lia|].
    vm_compute. reflexivity.
  - apply (sanitize_filename_length (JStr (pystr "ab cd")) 0); [lia|].
    vm_compute. reflexivity.
Defined.

Lemma sanitize_filename_fixed_witness :
  sanitize_filename (JStr (pystr "Trip ab")) 50 = Ok (pystr "Trip ab").
Proof.
  apply sanitize_filename_fixed.
  - vm_compute. discriminate.
  - refine (bool_decide_unpack _ _). vm_compute. exact I.
  - vm_compute. reflexivity.
  - vm_compute. lia.
Defined.

Lemma sanitize_filename_idempotent_witness :
  sanitize_filename (JStr (pystr "Trip ab")) 50 = Ok (pystr "Trip ab").
Proof.
  apply (sanitize_filename_idempotent (JStr (pystr "Trip: a/b")) 50).
  - lia.
  - vm_compute. reflexivity.
Defined.

Lemma sanitize_filename_untitled_witness :
  sanitize_filename JNull 50 = Ok (pystr "Untitled")
  /\ sanitize_filename (JStr (pystr "<?> / *")) 50 = Ok (pystr "Untitled")
  /\ sanitize_filename (JInt 7) 50 = Raise TypeError.
Proof.
  assert (H50 : 8 <= 50) by lia. split; [|split].
  - apply (proj1 (sanitize_filename_untitled JNull 50 H50)). reflexivity.
  - apply (proj1 (proj2 (sanitize_filename_untitled
                           (JStr (pystr "<?> / *")) 50 H50))
             (pystr "<?> / *")); [reflexivity|].
    refine (bool_decide_unpack _ _). vm_compute. exact I.
  - apply (proj2 (proj2 (sanitize_filename_untitled (JInt 7) 50 H50)));
      [reflexivity|discriminate].
Defined.

Lemma escape_html_safe_witness :
  Forall (fun c => c ∉ [less_than; greater_than; double_quote; single_quote])
    (pystr "a&lt;b&gt; &amp; &#x27;c&#x27;").
Proof.
  apply (escape_html_safe (JStr (pystr "a<b> & 'c'"))). vm_compute. reflexivity.
Defined.

Lemma escape_js_string_safe_witness :
  Forall (fun c => c ∉ [double_quote; less_than; greater_than; line_feed;
                        carriage_return])
    (pystr "a\\b&lt;c&gt;").
Proof.
  apply (escape_js_string_safe (JStr (pystr "a\b<c>"))). vm_compute. reflexivity.
Defined.

Lemma escape_html_inj_witness : pystr "a<b" = pystr "a<b".
Proof. apply escape_html_inj. reflexivity. Defined.

Lemma reachable_messages_shown_witness :
  Msg (pystr "user") (pystr "three") JNull
  ∈ [Msg (pystr "user") (pystr "one") JNull;
     Msg (pystr "user") (pystr "three") JNull;
     Msg (pystr "assistant") (pystr "two") JNull].
Proof.
  apply (reachable_messages_shown plain_str diamond _ (pystr "root")
           (pystr "c")).
  - vm_compute. reflexivity.
  - reflexivity.
  - vm_compute. discriminate.
  - apply (rtc_l _ _ (pystr "a")); [vm_compute; apply list_elem_of_here|].
    apply rtc_once. vm_compute. apply list_elem_of_here.
  - vm_compute. apply list_elem_of_here.
Defined.

Lemma thread_length_bound_witness :
  length [Msg (pystr "user") (pystr "[Image]" ++ newline ++ pystr "hi") JNull]
  <= length ragged.
Proof.
  apply (thread_length_bound plain_str). vm_compute. reflexivity.
Defined.

(** The parts one and two extract to one, a line feed, two. *)
Lemma extract_string_parts_witness :
  extract_message_text plain_str (JObj two_parts_message)
  = Ok (Some [111; 110; 101; 10; 116; 119; 111]%N).
Proof.
  etrans.
  - apply (extract_string_parts plain_str two_parts_message two_parts_content
             (pystr "one") [pystr "two"]); reflexivity.
  - vm_compute. reflexivity.
Defined.

(** The thread of the scenario has the user's and the assistant's
    message, and the count is 2. *)
Lemma count_bounds_thread_witness :
  (Z.of_nat (length (user_assistant_entries
                       [Msg (pystr "user") (pystr "Hi") JNull;
                        Msg (pystr "assistant") (pystr "Hello") JNull]))
   <= 2)%Z
  /\ length (user_assistant_entries
               [Msg (pystr "user") (pystr "Hi") JNull;
                Msg (pystr "assistant") (pystr "Hello") JNull]) = 2.
Proof.
  split; [|vm_compute; reflexivity].
  apply (count_bounds_thread plain_str scenario); vm_compute; reflexivity.
Defined.

Lemma export_names_distinct_witness :
  exists st : export_state unit,
    export_all plain_str unit no_datetime no_strftime no_strftime no_strftime
      same_title three_conversations = Ok st
    /\ (files st).*1 = [pystr "00000000_Trip ab.md";
                        pystr "00000000_Trip ab_1.md";
                        pystr "00000000_Untitled.md"]
    /\ NoDup (files st).*1
    /\ filenames_used st = list_to_set (files st).*1
    /\ exists convs, py_iter three_conversations = Ok convs
                    /\ length (files st) = length convs.
Proof.
  eexists. split; [vm_compute; reflexivity|]. split; [vm_compute; reflexivity|].
  apply (export_names_distinct plain_str unit no_datetime no_strftime
           no_strftime no_strftime same_title three_conversations).
  vm_compute. reflexivity.
Defined.

Lemma export_names_safe_witness :
  exists st : export_state unit,
    export_all plain_str unit no_datetime no_strftime no_strftime no_strftime
      same_title three_conversations = Ok st
    /\ Forall (fun f : str * str =>
         exists (created : option unit) (rest : str),
           f.1 = date_prefix_of unit no_strftime created ++ rest
           /\ Forall (fun c => c ∉ unsafe_chars) rest
           /\ pystr ".md" `suffix_of` rest)
       (files st).
Proof.
  eexists. split; [vm_compute; reflexivity|].
  apply (export_names_safe plain_str unit no_datetime no_strftime
           no_strftime no_strftime same_title three_conversations).
  vm_compute. reflexivity.
Defined.

Lemma export_entries_witness :
  exists (st : export_state unit) convs,
    export_all plain_str unit no_datetime no_strftime no_strftime no_strftime
      same_title three_conversations = Ok st
    /\ py_iter three_conversations = Ok convs
    /\ entry_message_count <$> conv_data st = [2%Z; 0%Z; 2%Z]
    /\ Forall2 (fun conv (f : str * str) =>
          conversation_to_markdown plain_str unit no_datetime no_strftime
            same_title conv = Ok f.2) convs (files st)
    /\ Forall2 (fun (f : str * str) e => entry_filename e = f.1)
         (files st) (conv_data st)
    /\ Forall2 (fun conv e =>
         py_get conv (pystr "title") (JStr (pystr "Untitled"))
         = Ok (entry_title e)
         /\ exists mapping,
              py_get conv (pystr "mapping") (JObj []) = Ok mapping
              /\ get_first_user_message plain_str mapping
                 = Ok (entry_preview e)
              /\ count_messages mapping = Ok (entry_message_count e))
         convs (conv_data st).
Proof.
  do 2 eexists. split; [vm_compute; reflexivity|].
  split; [reflexivity|]. split; [vm_compute; reflexivity|].
  apply (export_entries plain_str unit no_datetime no_strftime no_strftime
           no_strftime same_title three_conversations).
  - vm_compute. reflexivity.
  - reflexivity.
Defined.

Lemma preview_clean_witness :
  (line_feed ∉ replicate 100 97%N ++ [32%N] ++ replicate 49 98%N)
  /\ starts_clean (replicate 100 97%N ++ [32%N] ++ replicate 49 98%N) = true
  /\ length (replicate 100 97%N ++ [32%N] ++ replicate 49 98%N) <= 150.
Proof.
  apply (preview_clean plain_str (JObj long_message)). vm_compute. reflexivity.
Defined.

(** The sections of the dated entries: the conversation without date
    first, then the months from the latest on, and in a month the
    conversations from the latest on, those of one date in the order of
    the export. *)
Example dated_entries_groups :
  (fun group : str * list (index_entry Z) =>
     (group.1, entry_filename <$> group.2))
  <$> index_groups Z Z.ltb 0%Z dated_entries
  = [(pystr "Unknown", [pystr "f2.md"]);
     (pystr "2024-02", [pystr "f3.md"]);
     (pystr "2024-01", [pystr "f4.md"; pystr "f1.md"; pystr "f5.md"])].
Proof. vm_compute. reflexivity. Qed.

Lemma index_lists_each_once_witness :
  exists n sections,
    generate_html_index Z Z.ltb 0%Z (fun _ => []) (fun _ => None) (fun s => s)
      dated_entries = Ok (n, sections)
    /\ (fun s => row_href <$> section_rows s) <$> sections
       = [[pystr "f2.md"]; [pystr "f3.md"];
          [pystr "f4.md"; pystr "f1.md"; pystr "f5.md"]]
    /\ n = length dated_entries
    /\ concat ((fun s => row_href <$> section_rows s) <$> sections)
       ≡ₚ entry_filename <$> dated_entries
    /\ Forall2 (fun (group : str * list (index_entry Z)) s =>
                  section_month s = group.1
                  /\ section_count s = length (section_rows s)
                  /\ row_href <$> section_rows s = entry_filename <$> group.2)
         (index_groups Z Z.ltb 0%Z dated_entries) sections
    /\ Forall (fun group : str * list (index_entry Z) =>
                 Forall (fun c => entry_month c = group.1) group.2)
         (index_groups Z Z.ltb 0%Z dated_entries).
Proof.
  do 2 eexists. split; [vm_compute; reflexivity|].
  split; [vm_compute; reflexivity|].
  apply (index_lists_each_once Z Z.ltb 0%Z (fun _ => []) (fun _ => None)
           (fun s => s) dated_entries).
  vm_compute. reflexivity.
Defined.

Lemma index_months_descending_witness :
  exists n sections,
    generate_html_index Z Z.ltb 0%Z (fun _ => []) (fun _ => None) (fun s => s)
      dated_entries = Ok (n, sections)
    /\ section_month <$> sections
       = [pystr "Unknown"; pystr "2024-02"; pystr "2024-01"]
    /\ StronglySorted (fun a b => str_lt b a = true)
         (section_month <$> sections)
    /\ (forall m, m ∈ section_month <$> sections
                  <-> exists c, c ∈ dated_entries /\ entry_month c = m)
    /\ Forall (fun s => section_rows s <> []) sections.
Proof.
  do 2 eexists. split; [vm_compute; reflexivity|].
  split; [vm_compute; reflexivity|].
  apply (index_months_descending Z Z.ltb 0%Z (fun _ => []) (fun _ => None)
           (fun s => s) dated_entries 5).
  vm_compute. reflexivity.
Defined.

Lemma index_rows_by_date_witness :
  Forall (fun group : str * list (index_entry Z) =>
            StronglySorted
              (fun a b => (date_key Z 0 a <? date_key Z 0 b)%Z = false)
              group.2
            /\ forall d : Z,
                 filter (fun c => (date_key Z 0 c <? d)%Z = false
                                  /\ (d <? date_key Z 0 c)%Z = false)
                   group.2
                 = filter (fun c => (date_key Z 0 c <? d)%Z = false
                                    /\ (d <? date_key Z 0 c)%Z = false)
                     (filter (fun c => entry_month c = group.1)
                        dated_entries))
    (index_groups Z Z.ltb 0%Z dated_entries).
Proof.
  apply (index_rows_by_date Z Z.ltb 0%Z dated_entries).
  - intros a b H. apply Z.ltb_lt in H. apply Z.ltb_ge. lia.
  - intros a b c H1 H2. apply Z.ltb_ge in H1, H2. apply Z.ltb_ge. lia.
Defined.

Lemma index_needs_str_titles_witness :
  generate_html_index Z Z.ltb 0%Z (fun _ => []) (fun _ => None) (fun s => s)
    [IndexEntry (JStr "a") (Some 5%Z) (pystr "f1.md") (pystr "hello") 2%Z
       (pystr "2024-01");
     IndexEntry JNull None (pystr "f2.md") [] 0%Z (pystr "Unknown")]
  = Raise AttributeError.
Proof.
  apply (proj1 (index_needs_str_titles Z Z.ltb 0%Z (fun _ => [])
                  (fun _ => None) (fun s => s) _)).
  apply Exists_cons_tl, Exists_cons_hd. intros t. discriminate.
Defined.

Lemma index_links_files_witness :
  exists fs n sections,
    export_run plain_str unit no_datetime no_strftime no_strftime no_strftime
      same_title (fun _ _ => false) tt no_strftime (fun _ => None)
      (fun s => s) titled_conversations = Ok (fs, (n, sections))
    /\ fs.*1 = [pystr "00000000_Trip ab.md"; pystr "00000000_Trip ab_1.md";
                pystr "00000000_Untitled.md"]
    /\ n = length fs
    /\ concat ((fun s => row_href <$> section_rows s) <$> sections) ≡ₚ fs.*1
    /\ Forall (fun s => section_count s = length (section_rows s)) sections.
Proof.
  do 3 eexists. split; [vm_compute; reflexivity|].
  split; [vm_compute; reflexivity|].
  apply (index_links_files plain_str unit no_datetime no_strftime no_strftime
           no_strftime same_title (fun _ _ => false) tt no_strftime
           (fun _ => None) (fun s => s) titled_conversations).
  vm_compute. reflexivity.
Defined.

Lemma run_needs_str_titles_witness :
  (exists st : export_state unit,
     export_all plain_str unit no_datetime no_strftime no_strftime no_strftime
       same_title three_conversations = Ok st
     /\ length (files st) = 3)
  /\ export_run plain_str unit no_datetime no_strftime no_strftime no_strftime
       same_title (fun _ _ => false) tt no_strftime (fun _ => None)
       (fun s => s) three_conversations = Raise AttributeError.
Proof.
  split; [eexists; split; vm_compute; reflexivity|].
  edestruct (run_needs_str_titles plain_str unit no_datetime no_strftime
               no_strftime no_strftime same_title (fun _ _ => false) tt
               no_strftime (fun _ => None) (fun s => s) three_conversations)
    as [Hraise _]; [vm_compute; reflexivity|reflexivity|].
  apply Hraise. do 2 apply Exists_cons_tl. apply Exists_cons_hd.
  intros t. discriminate.
Defined.
